(** * Multi-agent collaboration notebook: routing state machine and tool adapter

    A shallow embedding of the Python cells of
    [multi-agent-collaboration_Github_v1.ipynb]: the shared [AgentState],
    the agent nodes, the tool node, the router and the three-node graph
    [workflow], followed by the properties of the routing state machine.

    Python values are dynamically typed, so the embedding carries a small
    universe of values ([pyval]) and an error monad ([res]) in which every
    operation that raises in Python returns [Raise].  The language model,
    the search tool, the code sandbox, the JSON decoder, the argument
    binding of the [@tool] decorator and the validation of a
    [ToolInvocation] are external to the notebook; they are the fields of
    the class [Externals], and every theorem holds for every instance of it.
    The graph builder and the execution of a compiled graph belong to the
    framework as well; they are modelled here the way the notebook relies on
    them. *)

From Stdlib Require Import Ascii String.
From stdpp Require Import base option list gmap strings fin_maps pretty.

Set Warnings "-register-all".
Local Open Scope string_scope.
Local Open Scope list_scope.

(** ** Python values and exceptions *)

(** The values that [json.loads] produces and that tools exchange.  Numbers
    keep their integer value, or their lexeme when they have a fraction or
    an exponent. *)
Inductive pyval : Type :=
  | PNone
  | PBool (b : bool)
  | PInt (z : Z)
  | PFloat (lexeme : string)
  | PStr (s : string)
  | PList (l : list pyval)
  | PDict (d : gmap string pyval).

(** The exceptions that the notebook's own statements can raise, and
    [ExternalError] for whatever an external collaborator raises. *)
Inductive PyExc : Type :=
  | IndexError
  | KeyError (key : string)
  | TypeError
  | AttributeError
  | StopIteration
  | ValueError
  | GraphRecursionError
  | ExternalError (cls : string) (detail : string).

Inductive res (A : Type) : Type :=
  | Ok (a : A)
  | Raise (e : PyExc).
Arguments Ok {A} a.
Arguments Raise {A} e.

Global Instance res_ret : MRet res := fun _ a => Ok a.
Global Instance res_bind : MBind res := fun _ _ k r =>
  match r with
  | Ok a => k a
  | Raise e => Raise e
  end.

(** [d[k]] on a dict whose keys are strings. *)
Definition dict_getitem {A : Type} (d : gmap string A) (k : string) : res A :=
  match d !! k with
  | Some v => Ok v
  | None => Raise (KeyError k)
  end.

(** [l[-1]]. *)
Definition list_getitem_last {A : Type} (l : list A) : res A :=
  match last l with
  | Some x => Ok x
  | None => Raise IndexError
  end.

(** [needle in hay] on two [str]: the substring test. *)
Fixpoint str_contains (needle hay : string) : bool :=
  if String.prefix needle hay then true
  else match hay with
       | EmptyString => false
       | String _ hay' => str_contains needle hay'
       end.

(** [v[k]] with a string subscript: only a dict accepts it. *)
Definition py_getitem (v : pyval) (k : string) : res pyval :=
  match v with
  | PDict d => dict_getitem d k
  | _ => Raise TypeError
  end.

(** [len(v)].  The length of a string is counted in bytes; [tool_node]
    compares it with 1 only before it looks for the six characters of
    [__arg1] in the string, which fails whichever way the length is
    counted. *)
Definition py_len (v : pyval) : res nat :=
  match v with
  | PDict d => Ok (size d)
  | PList l => Ok (length l)
  | PStr s => Ok (String.length s)
  | _ => Raise TypeError
  end.

Definition is_str (k : string) (v : pyval) : bool :=
  match v with
  | PStr s => bool_decide (s = k)
  | _ => false
  end.

(** [k in v] for a string [k]: key membership on a dict, element
    membership on a list, substring test on a string. *)
Definition py_contains (k : string) (v : pyval) : res bool :=
  match v with
  | PDict d => Ok (bool_decide (is_Some (d !! k)))
  | PList l => Ok (existsb (is_str k) l)
  | PStr s => Ok (str_contains k s)
  | _ => Raise TypeError
  end.

(** [next(iter(v.values()))]. *)
Definition py_first_value (v : pyval) : res pyval :=
  match v with
  | PDict d =>
      match map_to_list d with
      | (_, x) :: _ => Ok x
      | [] => Raise StopIteration
      end
  | _ => Raise AttributeError
  end.

(** ** Messages and the shared state *)

(** The message classes of the framework, as their [type] tag. *)
Inductive msg_type : Type := human | ai | function | system | chat.

Global Instance msg_type_eq_dec : EqDecision msg_type.
Proof. solve_decision. Defined.

(** A [BaseMessage]: the fields the notebook reads or writes.  [content] is
    the text of the message; [additional_kwargs] is where the model puts
    its [function_call]. *)
Record BaseMessage : Type := {
  type : msg_type;
  content : string;
  additional_kwargs : gmap string pyval;
  name : option string
}.

(** [FunctionMessage(content=c, name=n)]. *)
Definition FunctionMessage (c n : string) : BaseMessage :=
  {| type := function; content := c; additional_kwargs := ∅; name := Some n |}.

(** The [HumanMessage] built from [result.dict] without its [type] and
    [name] keys, and [name=n]: the other fields of [result] are kept. *)
Definition HumanMessage_from (result : BaseMessage) (n : string) : BaseMessage :=
  {| type := human; content := content result;
     additional_kwargs := additional_kwargs result; name := Some n |}.

(** [class AgentState(TypedDict)]: the two declared keys.  The notebook
    starts the graph from an input that has [messages] only, so [sender] is
    absent until a node writes it. *)
Record AgentState : Type := {
  messages : list BaseMessage;
  sender : option string
}.

(** What a node returns: a dict holding some of the keys of the state. *)
Record Update : Type := {
  u_messages : option (list BaseMessage);
  u_sender : option string
}.

(** Modelled from the spec: how the framework folds the result of a node
    back into the shared state, which is not part of the notebook.
    [messages] is annotated with [operator.add], so the update is
    concatenated to the right of the current list; [sender] has no reducer
    and is overwritten when present. *)
Definition apply_update (st : AgentState) (u : Update) : AgentState :=
  {| messages := match u_messages u with
                 | Some ms => messages st ++ ms
                 | None => messages st
                 end;
     sender := match u_sender u with
               | Some s => Some s
               | None => sender st
               end |}.

(** ** External collaborators *)

(** An agent is the chain [prompt | llm.bind_functions(functions)]: invoked
    on the state it answers with a message, or raises.  Along one run no
    state occurs twice (the message list grows at every step), so a function
    of the state is as general as a model that answers differently each
    time. *)
Definition Agent : Type := AgentState -> res BaseMessage.

Class Externals : Type := {
  (** [json.loads] *)
  json_loads : string -> res pyval;
  (** [repr(v)] of a value that is not a [str] *)
  py_repr : pyval -> string;
  (** [repr(e)] of an exception *)
  exc_repr : PyExc -> string;
  (** [repl.run]: what it returns, which is the captured stdout or the
      text that the sandbox makes of an error it caught itself, or the
      exception that it lets through *)
  repl_run : string -> res string;
  (** how [@tool] binds a tool input to the parameter [code] *)
  bind_code : pyval -> res string;
  (** [tavily_tool.invoke] *)
  tavily_invoke : pyval -> res pyval;
  research_agent : Agent;
  chart_agent : Agent;
  (** how the framework validates the fields [tool: str] and
      [tool_input: Union[str, dict]] of a [ToolInvocation]: a value of the
      declared type is kept as it is, another one is converted or refused *)
  validate_tool : pyval -> res string;
  validate_tool_input : pyval -> res pyval;
  validate_tool_str : forall s, validate_tool (PStr s) = Ok s;
  validate_tool_input_str : forall s, validate_tool_input (PStr s) = Ok (PStr s);
  validate_tool_input_dict : forall d, validate_tool_input (PDict d) = Ok (PDict d);
  (** what the tool executor answers when no tool has the given name *)
  unknown_tool : string -> res pyval
}.

Definition newline : string := String "010"%char EmptyString.

Section Notebook.
Context `{Ext : Externals}.

(** [str(v)] *)
Definition py_str (v : pyval) : string :=
  match v with
  | PStr s => s
  | _ => py_repr v
  end.

(** ** Tools *)

Record BaseTool : Type := {
  tool_name : string;
  tool_invoke : pyval -> res pyval
}.

Definition tavily_tool : BaseTool :=
  {| tool_name := "tavily_search_results_json"; tool_invoke := tavily_invoke |}.

(** The body of [python_repl]. *)
Definition python_repl (code : string) : string :=
  match repl_run code with
  | Raise e => "Failed to execute. Error: " +:+ exc_repr e
  | Ok result =>
      "Succesfully executed:" +:+ newline +:+ "```python" +:+ newline +:+ code
        +:+ newline +:+ "```" +:+ newline +:+ "Stdout: " +:+ result
  end.

(** [@tool]: the decorated function is a tool named after the function; its
    [invoke] binds the input to the parameter and calls the body. *)
Definition tool (fname : string) (body : string -> string) : BaseTool :=
  {| tool_name := fname;
     tool_invoke := fun input => code ← bind_code input; Ok (PStr (body code)) |}.

Definition tools : list BaseTool := [tavily_tool; tool "python_repl" python_repl].

Record ToolInvocation : Type := {
  tool_of : string;
  tool_input_of : pyval
}.

(** [ToolInvocation(tool=..., tool_input=...)] *)
Definition ToolInvocation_new (tool tool_input : pyval) : res ToolInvocation :=
  t ← validate_tool tool;
  i ← validate_tool_input tool_input;
  Ok {| tool_of := t; tool_input_of := i |}.

(** [{t.name: t for t in tools}] *)
Definition tool_map (ts : list BaseTool) : gmap string BaseTool :=
  foldl (fun m t => <[tool_name t := t]> m) ∅ ts.

(** Modelled from the spec: [ToolExecutor(ts).invoke] of the framework,
    which is not part of the notebook: a dictionary dispatch that calls the
    registered tool of the given name on the given input. *)
Definition ToolExecutor (ts : list BaseTool) (action : ToolInvocation) : res pyval :=
  match tool_map ts !! tool_of action with
  | None => unknown_tool (tool_of action)
  | Some t => tool_invoke t (tool_input_of action)
  end.

Definition tool_executor : ToolInvocation -> res pyval := ToolExecutor tools.

(** ** Nodes *)

(** [agent_node(state, agent, name)] *)
Definition agent_node (agent : Agent) (name : string) (state : AgentState) : res Update :=
  result ← agent state;
  let result :=
    if decide (type result = function) then result
    else HumanMessage_from result name in
  Ok {| u_messages := Some [result]; u_sender := Some name |}.

Definition research_node : AgentState -> res Update :=
  agent_node research_agent "assistant".

Definition chart_node : AgentState -> res Update :=
  agent_node chart_agent "Chart Generator".

(** [json.loads(v)]: the argument has to be a [str]. *)
Definition py_json_loads (v : pyval) : res pyval :=
  match v with
  | PStr s => json_loads s
  | _ => Raise TypeError
  end.

(** [tool_node(state)] *)
Definition tool_node (state : AgentState) : res Update :=
  last_message ← list_getitem_last (messages state);
  function_call ← dict_getitem (additional_kwargs last_message) "function_call";
  arguments ← py_getitem function_call "arguments";
  tool_input ← py_json_loads arguments;
  n ← py_len tool_input;
  single ← (if decide (n = 1) then py_contains "__arg1" tool_input else Ok false);
  tool_input ← (if single : bool then py_first_value tool_input else Ok tool_input);
  tool_name ← py_getitem function_call "name";
  action ← ToolInvocation_new tool_name tool_input;
  response ← tool_executor action;
  let function_message :=
    FunctionMessage (py_str tool_name +:+ " response: " +:+ py_str response)
      (tool_of action) in
  Ok {| u_messages := Some [function_message]; u_sender := None |}.

(** ** Edge logic *)

(** [router(state)] *)
Definition router (state : AgentState) : res string :=
  last_message ← list_getitem_last (messages state);
  if decide (is_Some (additional_kwargs last_message !! "function_call")) then
    Ok "call_tool"
  else if str_contains "FINAL ANSWER" (content last_message) then
    Ok "end"
  else
    Ok "continue".

(** ** The graph *)

(** [END], the reserved name at which a run stops. *)
Definition END : string := "__end__".

(** Modelled from the spec: the graph of the framework, which is not part
    of the notebook: named nodes, conditional edges and an entry point.  A
    conditional edge is the function that computes a key from the state,
    and the dict from keys to the name of the next node. *)
Record Branch : Type := {
  path : AgentState -> res string;
  path_map : gmap string string
}.

Record StateGraph : Type := {
  nodes : gmap string (AgentState -> res Update);
  branches : gmap string Branch;
  entry_point : option string
}.

Definition StateGraph_new : StateGraph :=
  {| nodes := ∅; branches := ∅; entry_point := None |}.

Definition add_node (key : string) (action : AgentState -> res Update)
    (g : StateGraph) : StateGraph :=
  {| nodes := <[key := action]> (nodes g);
     branches := branches g;
     entry_point := entry_point g |}.

Definition add_conditional_edges (start_key : string)
    (condition : AgentState -> res string) (mapping : gmap string string)
    (g : StateGraph) : StateGraph :=
  {| nodes := nodes g;
     branches := <[start_key := {| path := condition; path_map := mapping |}]> (branches g);
     entry_point := entry_point g |}.

Definition set_entry_point (key : string) (g : StateGraph) : StateGraph :=
  {| nodes := nodes g; branches := branches g; entry_point := Some key |}.

(** [lambda x: x["sender"]], on the state as a dict.  On a state without
    the key the lookup raises [KeyError] for it; a framework that fills the
    missing key with [None] before it evaluates the edge raises [KeyError]
    from the edge's mapping instead.  Either way the step fails with a
    [KeyError], and no property depends on what the exception carries. *)
Definition get_sender (x : AgentState) : res string :=
  match sender x with
  | Some s => Ok s
  | None => Raise (KeyError "sender")
  end.

Definition workflow : StateGraph :=
  let workflow := StateGraph_new in
  let workflow := add_node "assistant" research_node workflow in
  let workflow := add_node "Chart Generator" chart_node workflow in
  let workflow := add_node "call_tool" tool_node workflow in
  let workflow :=
    add_conditional_edges "assistant" router
      {[ "continue" := "Chart Generator"; "call_tool" := "call_tool"; "end" := END ]}
      workflow in
  let workflow :=
    add_conditional_edges "Chart Generator" router
      {[ "continue" := "assistant"; "call_tool" := "call_tool"; "end" := END ]}
      workflow in
  let workflow :=
    add_conditional_edges "call_tool" get_sender
      {[ "assistant" := "assistant"; "Chart Generator" := "Chart Generator" ]}
      workflow in
  set_entry_point "assistant" workflow.

(** Modelled from the spec: one step of the framework's execution of a
    compiled graph, which is not part of the notebook: the node at hand runs
    on the state, its update is folded into the state, and the conditional
    edge that leaves the node is evaluated on the new state to pick the next
    node. *)
Definition step (g : StateGraph) (node : string) (st : AgentState)
    : res (string * AgentState) :=
  action ← dict_getitem (nodes g) node;
  update ← action st;
  let st' := apply_update st update in
  branch ← dict_getitem (branches g) node;
  key ← path branch st';
  target ← dict_getitem (path_map branch) key;
  Ok (target, st').

(** Modelled from the spec: the framework's run of a compiled graph: steps
    are taken until the next node is [END]; a run that needs more than
    [recursion_limit] steps raises.  A step is the run of one node here;
    the framework counts its own steps against the limit, so the number at
    which a run is cut off is not claimed to be the framework's, and the
    properties are stated for every limit. *)
Fixpoint run (g : StateGraph) (recursion_limit : nat) (node : string)
    (st : AgentState) : res AgentState :=
  match recursion_limit with
  | 0 => Raise GraphRecursionError
  | S limit =>
      '(target, st') ← step g node st;
      if decide (target = END) then Ok st' else run g limit target st'
  end.

(** [workflow.compile()] followed by a run from the entry point. *)
Definition graph_invoke (g : StateGraph) (input : AgentState)
    (recursion_limit : nat) : res AgentState :=
  match entry_point g with
  | Some entry => run g recursion_limit entry input
  | None => Raise ValueError
  end.

(** The executions of a graph, with the names of the nodes that ran, in
    the order in which they ran. *)
Inductive reaches (g : StateGraph) (c0 : string * AgentState)
    : list string -> string * AgentState -> Prop :=
  | reaches_start : reaches g c0 [] c0
  | reaches_next tr node st c' :
      reaches g c0 tr (node, st) ->
      step g node st = Ok c' ->
      reaches g c0 (tr ++ [node]) c'.

End Notebook.

(** ** A reference instance of the external collaborators

    Theorems quantify over every instance of [Externals].  To run the
    notebook's functions on concrete inputs, this module provides one
    instance: a JSON decoder for the grammar that [json.loads] accepts, a
    [repr] for values and exceptions, the argument binding of a one-parameter
    tool, and scripted stand-ins for the search tool, the sandbox and the
    two agents. *)
Module Reference.

Definition dquote : ascii := "034"%char.
Definition backslash : ascii := "092"%char.

Definition is_ws (c : ascii) : bool :=
  bool_decide (c = " "%char) || bool_decide (c = "009"%char)
  || bool_decide (c = "010"%char) || bool_decide (c = "013"%char).

Fixpoint skip_ws (s : string) : string :=
  match s with
  | String c s' => if is_ws c then skip_ws s' else s
  | EmptyString => s
  end.

Definition is_digit (c : ascii) : bool :=
  (48 <=? nat_of_ascii c)%nat && (nat_of_ascii c <=? 57)%nat.

(** The longest prefix of digits, and the rest. *)
Fixpoint span_digits (s : string) : string * string :=
  match s with
  | String c s' =>
      if is_digit c then let '(ds, r) := span_digits s' in (String c ds, r)
      else (EmptyString, s)
  | EmptyString => (EmptyString, s)
  end.

Fixpoint digits_value (acc : Z) (ds : string) : Z :=
  match ds with
  | String c ds' => digits_value (10 * acc + Z.of_nat (nat_of_ascii c - 48)) ds'
  | EmptyString => acc
  end.

(** A number: an optional minus sign, an integer part without a leading
    zero, an optional fraction and an optional exponent.  A dot or an [e]
    that no digit follows is left in the input. *)
Definition parse_number (s : string) : option (pyval * string) :=
  let '(sign, s1) :=
    match s with
    | String "-"%char r => ("-", r)
    | _ => ("", s)
    end in
  let int_part :=
    match s1 with
    | String "0"%char r => Some ("0", r)
    | String c _ => if is_digit c then Some (span_digits s1) else None
    | EmptyString => None
    end in
  match int_part with
  | None => None
  | Some (ds, s2) =>
      let '(frac, s3) :=
        match s2 with
        | String "."%char r =>
            let '(fs, r') := span_digits r in
            if bool_decide (fs = "") then ("", s2) else ("." +:+ fs, r')
        | _ => ("", s2)
        end in
      let '(expo, s4) :=
        match s3 with
        | String e r =>
            if bool_decide (e = "e"%char) || bool_decide (e = "E"%char) then
              let '(sg, r1) :=
                match r with
                | String "-"%char r1 => ("-", r1)
                | String "+"%char r1 => ("+", r1)
                | _ => ("", r)
                end in
              let '(es, r2) := span_digits r1 in
              if bool_decide (es = "") then ("", s3)
              else (String e sg +:+ es, r2)
            else ("", s3)
        | EmptyString => ("", s3)
        end in
      if bool_decide (frac = "") && bool_decide (expo = "") then
        let n := digits_value 0 ds in
        Some (PInt (if bool_decide (sign = "-") then - n else n)%Z, s4)
      else Some (PFloat (sign +:+ ds +:+ frac +:+ expo), s4)
  end.

Definition hex_value (c : ascii) : option N :=
  let n := N_of_ascii c in
  if (48 <=? n)%N && (n <=? 57)%N then Some (n - 48)%N
  else if (65 <=? n)%N && (n <=? 70)%N then Some (n - 55)%N
  else if (97 <=? n)%N && (n <=? 102)%N then Some (n - 87)%N
  else None.

Definition hex4 (a b c d : ascii) : option N :=
  x ← hex_value a; y ← hex_value b; z ← hex_value c; w ← hex_value d;
  Some (((x * 16 + y) * 16 + z) * 16 + w)%N.

(** The UTF-8 bytes of a code point. *)
Definition utf8_encode (cp : N) : string :=
  let byte n := ascii_of_N n in
  (if cp <? 128 then String (byte cp) ""
   else if cp <? 2048 then
     String (byte (192 + cp / 64)) (String (byte (128 + cp mod 64)) "")
   else if cp <? 65536 then
     String (byte (224 + cp / 4096))
       (String (byte (128 + (cp / 64) mod 64)) (String (byte (128 + cp mod 64)) ""))
   else
     String (byte (240 + cp / 262144))
       (String (byte (128 + (cp / 4096) mod 64))
          (String (byte (128 + (cp / 64) mod 64)) (String (byte (128 + cp mod 64)) ""))))%N.

Definition simple_escape (c : ascii) : option ascii :=
  if bool_decide (c = dquote) then Some dquote
  else if bool_decide (c = backslash) then Some backslash
  else if bool_decide (c = "/"%char) then Some "/"%char
  else if bool_decide (c = "b"%char) then Some "008"%char
  else if bool_decide (c = "f"%char) then Some "012"%char
  else if bool_decide (c = "n"%char) then Some "010"%char
  else if bool_decide (c = "r"%char) then Some "013"%char
  else if bool_decide (c = "t"%char) then Some "009"%char
  else None.

(** The rest of a string literal after its opening quote: the decoded
    text, and what follows the closing quote.  A control character inside
    the literal is refused, as [json.loads] does by default. *)
Fixpoint parse_string_body (s : string) : option (string * string) :=
  match s with
  | EmptyString => None
  | String c r =>
      if bool_decide (c = dquote) then Some ("", r)
      else if bool_decide (c = backslash) then
        match r with
        | String "u"%char (String h1 (String h2 (String h3 (String h4 r')))) =>
            hi ← hex4 h1 h2 h3 h4;
            let pair :=
              match r' with
              | String b (String "u"%char (String l1 (String l2 (String l3 (String l4 r''))))) =>
                  if bool_decide (b = backslash) then
                    lo ← hex4 l1 l2 l3 l4;
                    if (55296 <=? hi)%N && (hi <? 56320)%N
                       && (56320 <=? lo)%N && (lo <? 57344)%N
                    then
                      '(t, rest) ← parse_string_body r'';
                      Some (utf8_encode (65536 + (hi - 55296) * 1024 + (lo - 56320))%N +:+ t, rest)
                    else None
                  else None
              | _ => None
              end in
            match pair with
            | Some p => Some p
            | None =>
                '(t, rest) ← parse_string_body r';
                Some (utf8_encode hi +:+ t, rest)
            end
        | String e r' =>
            e' ← simple_escape e;
            '(t, rest) ← parse_string_body r';
            Some (String e' t, rest)
        | EmptyString => None
        end
      else if (nat_of_ascii c <? 32)%nat then None
      else
        '(t, rest) ← parse_string_body r;
        Some (String c t, rest)
  end.

Fixpoint drop_str (n : nat) (s : string) : string :=
  match n, s with
  | S n', String _ s' => drop_str n' s'
  | _, _ => s
  end.

(** A literal word such as [true] at the head of the input. *)
Definition parse_word (w : string) (v : pyval) (s : string) : option (pyval * string) :=
  if String.prefix w s then Some (v, drop_str (String.length w) s) else None.

(** The elements of an array after the first one, up to the bracket. *)
Fixpoint parse_elems (value : string -> option (pyval * string)) (fuel : nat)
    (acc : list pyval) (s : string) : option (list pyval * string) :=
  match fuel with
  | O => None
  | S fuel' =>
      match skip_ws s with
      | String "]"%char r => Some (acc, r)
      | String ","%char r =>
          '(v, r') ← value (skip_ws r);
          parse_elems value fuel' (acc ++ [v]) r'
      | _ => None
      end
  end.

(** One member of an object: a string key, a colon, a value. *)
Definition parse_member (value : string -> option (pyval * string)) (s : string)
    : option (string * pyval * string) :=
  match s with
  | String q r =>
      if bool_decide (q = dquote) then
        '(k, r1) ← parse_string_body r;
        match skip_ws r1 with
        | String ":"%char r2 =>
            '(v, r3) ← value (skip_ws r2);
            Some (k, v, r3)
        | _ => None
        end
      else None
  | EmptyString => None
  end.

(** The members of an object after the first one, up to the brace.  A key
    that occurs again replaces the earlier value. *)
Fixpoint parse_members (value : string -> option (pyval * string)) (fuel : nat)
    (acc : gmap string pyval) (s : string) : option (gmap string pyval * string) :=
  match fuel with
  | O => None
  | S fuel' =>
      match skip_ws s with
      | String "}"%char r => Some (acc, r)
      | String ","%char r =>
          '(k, v, r') ← parse_member value (skip_ws r);
          parse_members value fuel' (<[k := v]> acc) r'
      | _ => None
      end
  end.

(** A JSON value at the head of the input (no leading whitespace). *)
Fixpoint parse_value (fuel : nat) (s : string) : option (pyval * string) :=
  match fuel with
  | O => None
  | S fuel' =>
      match s with
      | EmptyString => None
      | String c r =>
          if bool_decide (c = dquote) then
            '(t, rest) ← parse_string_body r; Some (PStr t, rest)
          else if bool_decide (c = "["%char) then
            match skip_ws r with
            | String "]"%char r' => Some (PList [], r')
            | r0 =>
                '(v, r1) ← parse_value fuel' r0;
                '(vs, r2) ← parse_elems (parse_value fuel') fuel' [v] r1;
                Some (PList vs, r2)
            end
          else if bool_decide (c = "{"%char) then
            match skip_ws r with
            | String "}"%char r' => Some (PDict ∅, r')
            | r0 =>
                '(k, v, r1) ← parse_member (parse_value fuel') r0;
                '(d, r2) ← parse_members (parse_value fuel') fuel' {[ k := v ]} r1;
                Some (PDict d, r2)
            end
          else if String.prefix "null" s then parse_word "null" PNone s
          else if String.prefix "true" s then parse_word "true" (PBool true) s
          else if String.prefix "false" s then parse_word "false" (PBool false) s
          else if String.prefix "NaN" s then parse_word "NaN" (PFloat "nan") s
          else if String.prefix "Infinity" s then parse_word "Infinity" (PFloat "inf") s
          else if String.prefix "-Infinity" s then parse_word "-Infinity" (PFloat "-inf") s
          else parse_number s
      end
  end.

(** [json.loads]: one value, surrounded by optional whitespace. *)
Definition loads (s : string) : res pyval :=
  match parse_value (S (String.length s)) (skip_ws s) with
  | Some (v, rest) =>
      if bool_decide (skip_ws rest = "") then Ok v
      else Raise (ExternalError "JSONDecodeError" "Extra data")
  | None => Raise (ExternalError "JSONDecodeError" "Expecting value")
  end.

Definition hex_digit (n : N) : ascii :=
  ascii_of_N (if (n <? 10)%N then 48 + n else 87 + n)%N.

Definition escape_char (quote c : ascii) : string :=
  let n := N_of_ascii c in
  if bool_decide (c = quote) then String backslash (String c "")
  else if bool_decide (c = backslash) then String backslash (String backslash "")
  else if bool_decide (c = "010"%char) then String backslash "n"
  else if bool_decide (c = "013"%char) then String backslash "r"
  else if bool_decide (c = "009"%char) then String backslash "t"
  else if (n <? 32)%N || bool_decide (n = 127%N) then
    String backslash (String "x"%char
      (String (hex_digit (n / 16)) (String (hex_digit (n mod 16)) "")))
  else String c "".

Fixpoint escape (quote : ascii) (s : string) : string :=
  match s with
  | String c s' => escape_char quote c +:+ escape quote s'
  | EmptyString => ""
  end.

(** [repr] of a [str]: single quotes, or double quotes when the text has a
    single quote and no double quote; the quote in use, the backslash and
    the control characters are escaped. *)
Definition repr_str (s : string) : string :=
  let quote :=
    if str_contains "'" s && negb (str_contains (String dquote "") s)
    then dquote else "'"%char in
  String quote (escape quote s) +:+ String quote "".

(** [repr] of a value.  The entries of a dict are printed in the order of
    the map and a float by its lexeme. *)
Fixpoint repr (v : pyval) : string :=
  match v with
  | PNone => "None"
  | PBool true => "True"
  | PBool false => "False"
  | PInt z => pretty z
  | PFloat lexeme => lexeme
  | PStr s => repr_str s
  | PList l => "[" +:+ String.concat ", " (map repr l) +:+ "]"
  | PDict d =>
      "{" +:+ String.concat ", "
                (map_fold (fun k x acc => app acc [repr_str k +:+ ": " +:+ repr x]) [] d)
          +:+ "}"
  end.

Definition repr_exc (e : PyExc) : string :=
  match e with
  | IndexError => "IndexError('list index out of range')"
  | KeyError k => "KeyError(" +:+ repr_str k +:+ ")"
  | TypeError => "TypeError()"
  | AttributeError => "AttributeError()"
  | StopIteration => "StopIteration()"
  | ValueError => "ValueError()"
  | GraphRecursionError => "GraphRecursionError()"
  | ExternalError cls detail =>
      cls +:+ "(" +:+ (if bool_decide (detail = "") then "" else repr_str detail) +:+ ")"
  end.

(** A scripted sandbox: the output of two programs, and a program that
    leaves the interpreter. *)
Definition run_script (code : string) : res string :=
  if bool_decide (code = "print(1)") then Ok ("1" +:+ newline)
  else if bool_decide (code = "print('UK GDP')") then Ok ("UK GDP" +:+ newline)
  else if bool_decide (code = "raise SystemExit") then Raise (ExternalError "SystemExit" "")
  else Ok "".

(** The input of a tool whose only parameter is [code]: the string itself,
    or a dict that holds a string under that name. *)
Definition bind_code_arg (input : pyval) : res string :=
  match input with
  | PStr c => Ok c
  | PDict d =>
      match d !! "code" with
      | Some (PStr c) => Ok c
      | _ => Raise (ExternalError "ValidationError" "code")
      end
  | _ => Raise (ExternalError "ValidationError" "code")
  end.

(** A scripted search: one hit that quotes the query. *)
Definition search (input : pyval) : res pyval :=
  match input with
  | PStr query => Ok (PList [PDict {[ "content" := PStr ("About " +:+ query) ]}])
  | _ => Raise (ExternalError "ValidationError" "query")
  end.

Definition quoted (s : string) : string := String dquote s +:+ String dquote "".

(** The model's answer that asks for a tool. *)
Definition function_call_message (fname arguments : string) : BaseMessage :=
  {| type := ai; content := "";
     additional_kwargs :=
       {[ "function_call" :=
            PDict {[ "name" := PStr fname; "arguments" := PStr arguments ]} ]};
     name := None |}.

Definition text_message (text : string) : BaseMessage :=
  {| type := ai; content := text; additional_kwargs := ∅; name := None |}.

(** A scripted researcher: it searches first, then reports. *)
Definition researcher : Agent := fun state =>
  match length (messages state) with
  | 1 => Ok (function_call_message "tavily_search_results_json"
               ("{" +:+ quoted "__arg1" +:+ ": " +:+ quoted "UK GDP" +:+ "}"))
  | 3 => Ok (text_message "The UK GDP figures are in the search result.")
  | _ => Ok (text_message "FINAL ANSWER")
  end.

(** A scripted chart generator: it runs code first, then finishes. *)
Definition charter : Agent := fun state =>
  match length (messages state) with
  | 4 => Ok (function_call_message "python_repl"
               ("{" +:+ quoted "code" +:+ ": " +:+ quoted "print(1)" +:+ "}"))
  | _ => Ok (text_message "FINAL ANSWER: the chart is drawn.")
  end.

(** The executor's answer for a name that is not registered. *)
Definition not_a_valid_tool (requested : string) : res pyval :=
  Ok (PStr (requested +:+ " is not a valid tool, try one of "
              +:+ "[tavily_search_results_json, python_repl].")).

(** The validation that accepts the declared types only. *)
Definition strict_str (v : pyval) : res string :=
  match v with
  | PStr s => Ok s
  | _ => Raise (ExternalError "ValidationError" "tool")
  end.

Definition strict_str_or_dict (v : pyval) : res pyval :=
  match v with
  | PStr _ | PDict _ => Ok v
  | _ => Raise (ExternalError "ValidationError" "tool_input")
  end.

Definition externals : Externals :=
  {| json_loads := loads;
     py_repr := repr;
     exc_repr := repr_exc;
     repl_run := run_script;
     bind_code := bind_code_arg;
     tavily_invoke := search;
     research_agent := researcher;
     chart_agent := charter;
     validate_tool := strict_str;
     validate_tool_input := strict_str_or_dict;
     validate_tool_str := fun _ => eq_refl;
     validate_tool_input_str := fun _ => eq_refl;
     validate_tool_input_dict := fun _ => eq_refl;
     unknown_tool := not_a_valid_tool |}.

(** The input of the notebook's first run. *)
Definition question : AgentState :=
  {| messages :=
       [ {| type := human;
            content := "Fetch the UK's GDP over the past 5 years, then draw a line graph of it. Once you code it up, finish.";
            additional_kwargs := ∅; name := None |} ];
     sender := None |}.

(** A turn of the chart generator that both asks for a tool and announces
    the final answer. *)
Definition eager_state : AgentState :=
  {| messages :=
       messages question ++
       [ {| type := human; content := "FINAL ANSWER: see the chart.";
            additional_kwargs :=
              additional_kwargs
                (function_call_message "python_repl"
                   ("{" +:+ quoted "code" +:+ ": " +:+ quoted "print(1)" +:+ "}"));
            name := Some "Chart Generator" |} ];
     sender := Some "Chart Generator" |}.


(** A turn of the chart generator that runs a program which leaves the
    interpreter, passed by the single-argument shorthand. *)
Definition exit_call : AgentState :=
  {| messages :=
       messages question ++
       [ HumanMessage_from
           (function_call_message "python_repl"
              ("{" +:+ quoted "__arg1" +:+ ": " +:+ quoted "raise SystemExit" +:+ "}"))
           "Chart Generator" ];
     sender := Some "Chart Generator" |}.

End Reference.

(** ** The second run recorded in the notebook

    The agents answer with the three messages that the notebook printed for
    the question about the sum of two variables; the other collaborators are
    those of [Reference]. *)
Module Recorded.

Definition first_reply : string :=
"```python
import tavily_search_results_json

# Get the data from the JSON file
data = tavily_search_results_json.get_data()

# Filter the data to only include variables named 'x' and 'y'
variables = [variable for variable in data if variable['name'] == 'x' or variable['name'] == 'y']

# Calculate the sum of the 'x' and 'y' variables
sum = float".

Definition last_reply : string :=
"FINAL ANSWER

```python
import tavily_search_results_json

# Get the data from the JSON file
ndata = tavily_search_results_json.get_data()

# Filter the data to only include variables named 'x' and 'y'
variables = [variable for variable in data if variable['name'] == 'x' or variable['name'] == 'y']

# Calculate the sum of the 'x' and 'y' variables
".

Definition researcher : Agent := fun state =>
  match length (messages state) with
  | 1 => Ok (Reference.text_message first_reply)
  | _ => Ok (Reference.text_message last_reply)
  end.

Definition charter : Agent := fun state =>
  Ok (Reference.text_message first_reply).

Definition externals : Externals :=
  {| json_loads := Reference.loads;
     py_repr := Reference.repr;
     exc_repr := Reference.repr_exc;
     repl_run := Reference.run_script;
     bind_code := Reference.bind_code_arg;
     tavily_invoke := Reference.search;
     research_agent := researcher;
     chart_agent := charter;
     validate_tool := Reference.strict_str;
     validate_tool_input := Reference.strict_str_or_dict;
     validate_tool_str := fun _ => eq_refl;
     validate_tool_input_str := fun _ => eq_refl;
     validate_tool_input_dict := fun _ => eq_refl;
     unknown_tool := Reference.not_a_valid_tool |}.

Definition question : BaseMessage :=
  {| type := human;
     content := "Give me the sum of two variables, x and y, x = 333 and y = 444. Once you code it up, finish.";
     additional_kwargs := ∅; name := None |}.

Definition said (text who : string) : BaseMessage :=
  {| type := human; content := text; additional_kwargs := ∅; name := Some who |}.




(** What the cell printed for it. *)
Definition printed_code : string :=
  "n\nimport tavily_search_results_json\n\n# Get the data from the JSON file\nndata = tavily_search_results_json.get_data()\n\n# Filter the data to only include variables named 'x' and 'y'\nvariables = [variable for variable in data if variable['name'] == 'x' or variable['name'] == 'y']\n\n# Calculate the sum of the 'x' and 'y' variables\n"
    +:+ String Reference.dquote "".

(** What [repl.run] returned when the notebook passed that code to
    [python_repl], as the output of the next cell shows it after [Stdout: ]:
    the code does not parse, and the sandbox gave the [repr] of the
    [SyntaxError] back as its output instead of raising it.  The error
    quotes the offending line, which is the whole code and a line end. *)
Definition syntax_error_report : string :=
  "SyntaxError('unexpected character after line continuation character', ('<string>', 1, 3, "
    +:+ Reference.repr_str (printed_code +:+ newline) +:+ "))".

(** The sandbox of that session: it answers the recorded code with the
    recorded output. *)
Definition run_recorded (code : string) : res string :=
  if bool_decide (code = printed_code) then Ok syntax_error_report
  else Reference.run_script code.

Definition sandbox : Externals :=
  {| json_loads := Reference.loads;
     py_repr := Reference.repr;
     exc_repr := Reference.repr_exc;
     repl_run := run_recorded;
     bind_code := Reference.bind_code_arg;
     tavily_invoke := Reference.search;
     research_agent := researcher;
     chart_agent := charter;
     validate_tool := Reference.strict_str;
     validate_tool_input := Reference.strict_str_or_dict;
     validate_tool_str := fun _ => eq_refl;
     validate_tool_input_str := fun _ => eq_refl;
     validate_tool_input_dict := fun _ => eq_refl;
     unknown_tool := Reference.not_a_valid_tool |}.

End Recorded.

(** ** Vocabulary of the properties *)

(** The model asked for a tool: the key [function_call] is present. *)
Definition carries_function_call (m : BaseMessage) : Prop :=
  is_Some (additional_kwargs m !! "function_call").

(** The text [FINAL ANSWER] occurs somewhere in the content. *)
Definition says_final_answer (m : BaseMessage) : Prop :=
  ∃ before after, content m = before +:+ "FINAL ANSWER" +:+ after.

(** The [function_call] of a message names [fname] and carries the text
    [arguments]. *)
Definition calls (m : BaseMessage) (fname arguments : string) : Prop :=
  ∃ function_call,
    additional_kwargs m !! "function_call" = Some function_call
    ∧ py_getitem function_call "name" = Ok (PStr fname)
    ∧ py_getitem function_call "arguments" = Ok (PStr arguments).

(** The names of the two agent nodes. *)
Definition agent_names : list string := ["assistant"; "Chart Generator"].

(** The shorthand for single-argument tools, in the words of the
    specification: an object whose only key is [__arg1] stands for the
    value under that key. *)
Definition single_arg_shorthand (d : gmap string pyval) : pyval :=
  match d !! "__arg1" with
  | Some v => if decide (dom d = {[ "__arg1" ]}) then v else PDict d
  | None => PDict d
  end.

(** The agent to which an agent hands over. *)
Definition other_agent (agent : string) : string :=
  if decide (agent = "assistant") then "Chart Generator" else "assistant".

(** The targets of the conditional edge that leaves an agent node whose
    peer is [other]. *)
Definition agent_ends (other : string) : gmap string string :=
  {[ "continue" := other; "call_tool" := "call_tool"; "end" := END ]}.

(** The node function registered for an agent node. *)
Definition agent_action `{Externals} (agent : string) : AgentState → res Update :=
  if decide (agent = "assistant") then research_node else chart_node.

(** The message of a tool node for a tool's response. *)
Definition tool_response_update `{Externals} (fname : string) (response : pyval) : Update :=
  {| u_messages :=
       Some [FunctionMessage (fname +:+ " response: " +:+ py_str response) fname];
     u_sender := None |}.

(** ** The cells that cut the code out of the final state

    The two cells after each run turn the final state into a text and cut
    the program out of it with [str.find], a slice and [str.strip].  A
    character of a text is taken here as a code point below 256, so that
    positions and lengths count characters as Python does, and whitespace
    is what [str.isspace] accepts in that range.  The properties of the
    cells are stated for texts that [str.isascii] accepts, where a position
    is the same whether it counts characters or encoded bytes. *)


Fixpoint str_take (n : nat) (s : string) : string :=
  match n, s with
  | S n', String c s' => String c (str_take n' s')
  | _, _ => EmptyString
  end.












(** ** Vocabulary of the further properties *)

(** A decoded value that has no length: [None], a boolean or a number. *)
Definition json_scalar (v : pyval) : Prop :=
  match v with
  | PNone | PBool _ | PInt _ | PFloat _ => True
  | _ => False
  end.

(** What can be said of the message that the node [node] appended: the
    tool node appends a function message without [additional_kwargs]; an
    agent node appends a human message under its own name, or the function
    message that its agent returned. *)
Definition said_by (node : string) (m : BaseMessage) : Prop :=
  if decide (node = "call_tool") then
    type m = function ∧ additional_kwargs m = ∅ ∧ is_Some (name m)
  else
    type m = function ∨ (type m = human ∧ name m = Some node).

(** The agent behind an agent node. *)
Definition agent_of `{Ext : Externals} (node : string) : Agent :=
  if decide (node = "assistant") then research_agent else chart_agent.

(** The message [m] is what the node [node] appends when it runs on the
    state [st].  For the tool node it is the message of the update that
    [tool_node] returns on [st], a function message with a name and without
    [additional_kwargs].  For an agent node it is made from the reply of
    its agent on [st]: the reply itself when that is a function message,
    and otherwise the human message built from it under the node's name. *)
Definition appended_by `{Ext : Externals} (st : AgentState) (node : string)
    (m : BaseMessage) : Prop :=
  if decide (node = "call_tool") then
    ∃ u, tool_node st = Ok u ∧ u_messages u = Some [m]
         ∧ type m = function ∧ additional_kwargs m = ∅ ∧ is_Some (name m)
  else
    ∃ reply, agent_of node st = Ok reply
             ∧ m = (if decide (type reply = function) then reply
                    else HumanMessage_from reply node).

(** The nodes that may follow a node in an execution. *)
Definition may_follow (a b : string) : Prop :=
  (a ∈ agent_names ∧ (b = "call_tool" ∨ b = other_agent a ∨ b = END))
  ∨ (a = "call_tool" ∧ b ∈ agent_names).

(** ** Facts about the helper operations *)

Lemma append_cons (c : ascii) (s t : string) :
  String c s +:+ t = String c (s +:+ t).
Proof. reflexivity. Qed.

Lemma append_nil (t : string) : "" +:+ t = t.
Proof. reflexivity. Qed.

Lemma string_prefix_app (n h : string) :
  String.prefix n h = true ↔ ∃ b, h = n +:+ b.
Proof.
  revert h. induction n as [|c n IH]; intros h.
  - destruct h; simpl; split; eauto.
  - destruct h as [|c' h]; simpl.
    + split; [discriminate | intros [b Hb]; discriminate].
    + destruct (ascii_dec c c') as [->|Hne].
      * rewrite IH. split; intros [b Hb]; exists b;
          rewrite append_cons in *; congruence.
      * split; [discriminate|]. intros [b Hb].
        rewrite append_cons in Hb. congruence.
Qed.

Lemma str_contains_unfold (n h : string) :
  str_contains n h =
    if String.prefix n h then true
    else match h with
         | EmptyString => false
         | String _ h' => str_contains n h'
         end.
Proof. destruct h; reflexivity. Qed.

Lemma str_contains_spec (n h : string) :
  str_contains n h = true ↔ ∃ a b, h = a +:+ n +:+ b.
Proof.
  induction h as [|c h IH]; rewrite str_contains_unfold.
  - destruct (String.prefix n "") eqn:Hp.
    + apply string_prefix_app in Hp as [b Hb]. split; [|done].
      intros _. exists "", b. by rewrite append_nil.
    + split; [discriminate|]. intros (a & b & Hab).
      destruct a; [|discriminate]. rewrite append_nil in Hab.
      assert (String.prefix n "" = true) by (apply string_prefix_app; eauto).
      congruence.
  - destruct (String.prefix n (String c h)) eqn:Hp.
    + apply string_prefix_app in Hp as [b Hb]. split; [|done].
      intros _. exists "", b. by rewrite append_nil.
    + rewrite IH. split.
      * intros (a & b & ->). exists (String c a), b. by rewrite append_cons.
      * intros (a & b & Hab). destruct a as [|c' a].
        -- rewrite append_nil in Hab.
           assert (String.prefix n (String c h) = true) by (apply string_prefix_app; eauto).
           congruence.
        -- rewrite append_cons in Hab. injection Hab as -> ->. eauto.
Qed.

Lemma says_final_answer_decide (m : BaseMessage) :
  str_contains "FINAL ANSWER" (content m) = true ↔ says_final_answer m.
Proof. apply str_contains_spec. Qed.

Lemma router_eq (state : AgentState) (m : BaseMessage) :
  last (messages state) = Some m →
  router state =
    if decide (carries_function_call m) then Ok "call_tool"
    else if str_contains "FINAL ANSWER" (content m) then Ok "end"
    else Ok "continue".
Proof.
  intros Hlast. unfold router, list_getitem_last, carries_function_call.
  rewrite Hlast. simpl. done.
Qed.

(** ** Facts about the nodes and the graph *)

(** Case analysis on the first failing call of a monadic computation that
    is known to return. *)
Ltac res_inv H :=
  repeat
    match type of H with
    | mbind _ ?r = Ok _ =>
        let E := fresh "E" in
        destruct r eqn:E; simpl in H; [|discriminate H]
    end.

Section GraphFacts.
Context `{Ext : Externals}.

Lemma agent_node_inv (agent : Agent) (name : string) (st : AgentState) (u : Update) :
  agent_node agent name st = Ok u →
  u_sender u = Some name ∧ ∃ m, u_messages u = Some [m].
Proof.
  unfold agent_node. intros H. res_inv H.
  injection H as <-. simpl. eauto.
Qed.

Lemma tool_node_inv (st : AgentState) (u : Update) :
  tool_node st = Ok u →
  u_sender u = None ∧ ∃ c n, u_messages u = Some [FunctionMessage c n].
Proof.
  unfold tool_node. intros H. res_inv H.
  injection H as <-. simpl. eauto.
Qed.

Lemma agent_names_cases (agent : string) :
  agent ∈ agent_names ↔ agent = "assistant" ∨ agent = "Chart Generator".
Proof.
  unfold agent_names. rewrite !elem_of_cons, elem_of_nil. tauto.
Qed.

Lemma call_tool_not_agent : "call_tool" ∉ agent_names.
Proof. rewrite agent_names_cases. intros [?|?]; discriminate. Qed.

Lemma agent_ends_inv (other key target : string) :
  agent_ends other !! key = Some target →
  (key = "continue" ∧ target = other)
  ∨ (key = "call_tool" ∧ target = "call_tool")
  ∨ (key = "end" ∧ target = END).
Proof.
  unfold agent_ends. intros H.
  repeat (apply lookup_insert_Some in H as [[<- <-]|[? H]]; [eauto|]).
  apply lookup_singleton_Some in H as [<- <-]. eauto.
Qed.

Lemma step_agent (agent : string) (st : AgentState) :
  agent ∈ agent_names →
  step workflow agent st =
    (u ← agent_action agent st;
     key ← router (apply_update st u);
     target ← dict_getitem (agent_ends (other_agent agent)) key;
     Ok (target, apply_update st u)).
Proof.
  rewrite agent_names_cases. intros [->| ->]; reflexivity.
Qed.

Lemma step_call_tool (st : AgentState) :
  step workflow "call_tool" st =
    (u ← tool_node st;
     key ← get_sender (apply_update st u);
     target ← dict_getitem
                ({[ "assistant" := "assistant";
                    "Chart Generator" := "Chart Generator" ]} : gmap string string) key;
     Ok (target, apply_update st u)).
Proof. reflexivity. Qed.

Lemma step_node_cases (node : string) (st : AgentState) (c : string * AgentState) :
  step workflow node st = Ok c →
  node ∈ agent_names ∨ node = "call_tool".
Proof.
  unfold step, dict_getitem. intros H.
  destruct (nodes workflow !! node) as [f|] eqn:Hf; [|discriminate].
  clear H. revert Hf. unfold workflow.
  cbn [nodes add_node add_conditional_edges set_entry_point StateGraph_new].
  intros H. rewrite agent_names_cases.
  repeat (apply lookup_insert_Some in H as [[<- <-]|[? H]]; [eauto|]).
  by rewrite lookup_empty in H.
Qed.

(** What a step of an agent node does. *)
Lemma step_agent_inv (agent : string) (st : AgentState) (target : string)
    (st' : AgentState) :
  agent ∈ agent_names →
  step workflow agent st = Ok (target, st') →
  ∃ u key m,
    agent_action agent st = Ok u
    ∧ st' = apply_update st u
    ∧ u_sender u = Some agent
    ∧ u_messages u = Some [m]
    ∧ router st' = Ok key
    ∧ agent_ends (other_agent agent) !! key = Some target.
Proof.
  intros Ha H. rewrite (step_agent _ _ Ha) in H. res_inv H.
  injection H as <- <-.
  match goal with E : agent_action _ _ = Ok ?u |- _ => rename u into upd end.
  assert (u_sender upd = Some agent ∧ ∃ m, u_messages upd = Some [m]) as [Hs [m Hm]].
  { apply agent_names_cases in Ha as [->| ->].
    - exact (agent_node_inv research_agent "assistant" st upd E).
    - exact (agent_node_inv chart_agent "Chart Generator" st upd E). }
  match goal with E : dict_getitem _ ?k = Ok _ |- _ =>
    exists upd, k, m; unfold dict_getitem in E;
    destruct (agent_ends (other_agent agent) !! k) eqn:Hk; [|discriminate];
    injection E as ->
  end.
  split_and!; done.
Qed.

(** What a step of the tool node does. *)
Lemma step_call_tool_inv (st : AgentState) (target : string) (st' : AgentState) :
  step workflow "call_tool" st = Ok (target, st') →
  ∃ u c n,
    tool_node st = Ok u
    ∧ st' = apply_update st u
    ∧ u_sender u = None
    ∧ u_messages u = Some [FunctionMessage c n]
    ∧ sender st = Some target
    ∧ target ∈ agent_names.
Proof.
  rewrite step_call_tool. intros H. res_inv H. injection H as <- <-.
  match goal with E : tool_node _ = Ok ?u |- _ => rename u into upd end.
  destruct (tool_node_inv _ _ E) as [Hs (c & n & Hm)].
  exists upd, c, n.
  match goal with E : get_sender _ = Ok ?k |- _ =>
    unfold get_sender in E; simpl in E; rewrite Hs in E;
    destruct (sender st) as [s|] eqn:Hsender; [|discriminate];
    injection E as ->
  end.
  match goal with E : dict_getitem ?ends ?k = Ok _ |- _ =>
    unfold dict_getitem in E;
    destruct (ends !! k) eqn:Hk; [|discriminate]; injection E as ->
  end.
  apply lookup_insert_Some in Hk as [[<- <-]|[? Hk]];
    [|apply lookup_singleton_Some in Hk as [<- <-]];
    split_and!; try done; apply agent_names_cases; eauto.
Qed.

(** Every step appends exactly one message. *)
Lemma step_appends (node : string) (st : AgentState) (target : string)
    (st' : AgentState) :
  step workflow node st = Ok (target, st') →
  ∃ m, messages st' = messages st ++ [m]
       ∧ (node = "call_tool" → type m = function).
Proof.
  intros H. destruct (step_node_cases _ _ _ H) as [Ha| ->].
  - destruct (step_agent_inv _ _ _ _ Ha H) as (u & key & m & _ & -> & _ & Hm & _).
    exists m. unfold apply_update. simpl. rewrite Hm. split; [done|].
    intros ->. by destruct call_tool_not_agent.
  - destruct (step_call_tool_inv _ _ _ H) as (u & c & n & _ & -> & _ & Hm & _).
    exists (FunctionMessage c n). unfold apply_update. simpl. by rewrite Hm.
Qed.

End GraphFacts.

(** ** Facts about runs *)

Lemma router_inv (st : AgentState) (key : string) :
  router st = Ok key →
  ∃ m, last (messages st) = Some m
       ∧ ((key = "call_tool" ∧ carries_function_call m)
          ∨ (key = "end" ∧ ¬ carries_function_call m ∧ says_final_answer m)
          ∨ (key = "continue" ∧ ¬ carries_function_call m ∧ ¬ says_final_answer m)).
Proof.
  intros H. destruct (last (messages st)) as [m|] eqn:Hlast.
  - exists m. split; [done|]. rewrite (router_eq _ _ Hlast) in H.
    rewrite <- says_final_answer_decide.
    destruct (decide (carries_function_call m));
      [|destruct (str_contains "FINAL ANSWER" (content m))];
      injection H as <-; intuition congruence.
  - unfold router, list_getitem_last in H. rewrite Hlast in H. discriminate.
Qed.

Section RunFacts.
Context (g : StateGraph).

Lemma run_inv (limit : nat) (node : string) (st st' : AgentState) :
  run g (S limit) node st = Ok st' →
  ∃ target st1,
    step g node st = Ok (target, st1)
    ∧ ((target = END ∧ st' = st1) ∨ (target ≠ END ∧ run g limit target st1 = Ok st')).
Proof.
  simpl. intros H. destruct (step g node st) as [[target st1]|] eqn:Hstep;
    simpl in H; [|discriminate].
  exists target, st1. split; [done|].
  destruct (decide (target = END)); [left|right]; split; congruence.
Qed.

Lemma reaches_cons (node : string) (st : AgentState) (c1 c2 : string * AgentState)
    (tr : list string) :
  step g node st = Ok c1 →
  reaches g c1 tr c2 →
  reaches g (node, st) (node :: tr) c2.
Proof.
  intros Hstep Hr. induction Hr as [|tr n s c' _ IH Hs].
  - apply (reaches_next g (node, st) [] node st c1); [constructor | done].
  - rewrite app_comm_cons. by eapply reaches_next.
Qed.

(** A run that returns is an execution that ends at [END]. *)
Lemma run_reaches (limit : nat) (node : string) (st st' : AgentState) :
  run g limit node st = Ok st' →
  ∃ tr, reaches g (node, st) tr (END, st') ∧ tr ≠ [] ∧ (length tr ≤ limit)%nat.
Proof.
  revert node st. induction limit as [|limit IH]; intros node st H; [discriminate|].
  apply run_inv in H as (target & st1 & Hstep & [[-> ->]|[_ Hrun]]).
  - exists [node]. split_and!; [|done|simpl; lia].
    eapply reaches_cons; [done | constructor].
  - apply IH in Hrun as (tr & Hr & _ & Hlen).
    exists (node :: tr). split_and!; [|done|simpl; lia].
    by eapply reaches_cons.
Qed.

End RunFacts.

(** ** Facts about the tool node *)

Section ToolFacts.
Context `{Ext : Externals}.

Lemma single_key_dict (d : gmap string pyval) (k : string) (v : pyval) :
  size d = 1 → d !! k = Some v → d = {[ k := v ]}.
Proof.
  intros Hsize Hk.
  assert (delete k d = ∅) as Hdel.
  { apply map_size_empty_inv. rewrite map_size_delete, Hk. simpl. lia. }
  by rewrite <- (insert_delete_id d k v Hk), Hdel.
Qed.

(** The three statements of [tool_node] that implement the shorthand
    compute what the specification words say. *)
Lemma shorthand_eval (d : gmap string pyval) :
  (n ← py_len (PDict d);
   single ← (if decide (n = 1) then py_contains "__arg1" (PDict d) else Ok false);
   if single : bool then py_first_value (PDict d) else Ok (PDict d))
  = Ok (single_arg_shorthand d).
Proof.
  unfold single_arg_shorthand. simpl.
  destruct (decide (size d = 1)) as [Hsize|Hsize]; simpl.
  - destruct (d !! "__arg1") as [v|] eqn:Hk.
    + rewrite bool_decide_eq_true_2 by eauto.
      rewrite (single_key_dict d _ v Hsize Hk).
      rewrite map_to_list_singleton, dom_singleton_L.
      by rewrite decide_True.
    + rewrite bool_decide_eq_false_2; [done|]. by intros [? ?].
  - destruct (d !! "__arg1") as [v|] eqn:Hk; [|done].
    rewrite decide_False; [done|]. intros Hdom. apply Hsize.
    by rewrite <- size_dom, Hdom, size_singleton.
Qed.

Lemma tool_map_tools :
  tool_map tools =
    <[ "python_repl" := tool "python_repl" python_repl ]>
      (<[ "tavily_search_results_json" := tavily_tool ]> ∅).
Proof. reflexivity. Qed.

(** The executor calls the registered tool of that name. *)
Lemma tool_executor_registered (t : BaseTool) (input : pyval) :
  t ∈ tools →
  tool_executor {| tool_of := tool_name t; tool_input_of := input |}
  = tool_invoke t input.
Proof.
  intros Ht. unfold tool_executor, ToolExecutor. rewrite tool_map_tools.
  unfold tools in Ht. rewrite !elem_of_cons, elem_of_nil in Ht.
  destruct Ht as [->|[->|[]]]; simpl.
  - rewrite lookup_insert_ne by done. by rewrite lookup_insert_eq.
  - by rewrite lookup_insert_eq.
Qed.

(** [tool_node] up to the call of the executor, when the arguments decode
    to an object. *)
Lemma tool_node_decoded (state : AgentState) (last_message : BaseMessage)
    (fname arguments : string) (d : gmap string pyval) :
  last (messages state) = Some last_message →
  calls last_message fname arguments →
  json_loads arguments = Ok (PDict d) →
  tool_node state =
    (input ← validate_tool_input (single_arg_shorthand d);
     response ← tool_executor {| tool_of := fname; tool_input_of := input |};
     Ok (tool_response_update fname response)).
Proof.
  intros Hlast (fc & Hfc & Hname & Hargs) Hjson.
  unfold tool_node, list_getitem_last, dict_getitem. rewrite Hlast. simpl.
  rewrite Hfc. simpl. rewrite Hargs. simpl. rewrite Hjson. simpl.
  pose proof (shorthand_eval d) as Hsh. simpl in Hsh.
  assert (Hrest : ∀ input0,
            (tool_name ← py_getitem fc "name";
             action ← ToolInvocation_new tool_name input0;
             response ← tool_executor action;
             Ok {| u_messages :=
                     Some [FunctionMessage
                             (py_str tool_name +:+ " response: " +:+ py_str response)
                             (tool_of action)];
                   u_sender := None |})
            = (input ← validate_tool_input input0;
               response ← tool_executor {| tool_of := fname; tool_input_of := input |};
               Ok (tool_response_update fname response))).
  { intros input0. rewrite Hname. simpl. unfold ToolInvocation_new.
    rewrite validate_tool_str. simpl.
    by destruct (validate_tool_input input0). }
  destruct (decide (size d = 1)); simpl in *.
  - destruct (bool_decide (is_Some (d !! "__arg1"))); simpl in *;
      [rewrite Hsh|injection Hsh as <-]; simpl; apply Hrest.
  - injection Hsh as <-. simpl. apply Hrest.
Qed.


End ToolFacts.

(** ** The router *)

(** C1. On a state whose message list is not empty the router returns one
    of three keys, tested in this order: [call_tool] exactly when the last
    message carries a [function_call]; [end] exactly when it carries none
    and [FINAL ANSWER] occurs in its content; [continue] exactly when
    neither holds. *)
Theorem router_three_outcomes (state : AgentState) :
  messages state ≠ [] →
  ∃ last_message,
    last (messages state) = Some last_message
    ∧ (router state = Ok "call_tool" ∨ router state = Ok "end"
       ∨ router state = Ok "continue")
    ∧ (router state = Ok "call_tool" ↔ carries_function_call last_message)
    ∧ (router state = Ok "end" ↔
         ¬ carries_function_call last_message ∧ says_final_answer last_message)
    ∧ (router state = Ok "continue" ↔
         ¬ carries_function_call last_message ∧ ¬ says_final_answer last_message).
Proof.
  intros Hne. apply last_is_Some in Hne as [m Hm]. exists m.
  split; [done|]. rewrite (router_eq _ _ Hm).
  rewrite <- says_final_answer_decide.
  destruct (decide (carries_function_call m)) as [Hfc|Hfc];
    [|destruct (str_contains "FINAL ANSWER" (content m))];
    split_and!; intuition (discriminate || congruence).
Qed.

Lemma router_three_outcomes_witness :
  messages Reference.question ≠ []
  ∧ ∃ last_message,
      last (messages Reference.question) = Some last_message
      ∧ (router Reference.question = Ok "call_tool"
         ∨ router Reference.question = Ok "end"
         ∨ router Reference.question = Ok "continue")
      ∧ (router Reference.question = Ok "call_tool" ↔
           carries_function_call last_message)
      ∧ (router Reference.question = Ok "end" ↔
           ¬ carries_function_call last_message ∧ says_final_answer last_message)
      ∧ (router Reference.question = Ok "continue" ↔
           ¬ carries_function_call last_message ∧ ¬ says_final_answer last_message).
Proof.
  split; [discriminate|].
  apply (router_three_outcomes Reference.question). discriminate.
Defined.

(** C9. The test for a function call comes first: when the last message
    both carries a [function_call] and contains [FINAL ANSWER], the router
    answers [call_tool] and not [end]. *)
Theorem function_call_takes_precedence (state : AgentState) (last_message : BaseMessage) :
  last (messages state) = Some last_message →
  carries_function_call last_message →
  says_final_answer last_message →
  router state = Ok "call_tool" ∧ router state ≠ Ok "end".
Proof.
  intros Hlast Hfc _. rewrite (router_eq _ _ Hlast).
  by rewrite decide_True.
Qed.

Lemma function_call_takes_precedence_witness :
  router Reference.eager_state = Ok "call_tool"
  ∧ router Reference.eager_state ≠ Ok "end".
Proof.
  eapply (function_call_takes_precedence Reference.eager_state).
  - reflexivity.
  - eexists. reflexivity.
  - exists "", ": see the chart.". reflexivity.
Defined.

(** ** The code-execution tool *)

(** C6, at the code that the notebook itself passed to [python_repl].
    Executing that code raises a [SyntaxError], yet the result is not the
    [Failed to execute. Error: ] string: the handler of [python_repl] sees
    only what [repl.run] raises, and [repl.run] returned the [repr] of the
    error as its output.  The result is [Succesfully executed:], the code in
    a fenced block, and [Stdout: ] followed by that [repr], which is the
    output recorded in the notebook. *)
Theorem python_repl_reports_error_as_success :
  python_repl (Ext := Recorded.sandbox) Recorded.printed_code =
    "Succesfully executed:" +:+ newline +:+ "```python" +:+ newline
      +:+ Recorded.printed_code +:+ newline +:+ "```" +:+ newline
      +:+ "Stdout: " +:+ Recorded.syntax_error_report
  ∧ String.prefix "SyntaxError(" Recorded.syntax_error_report = true
  ∧ String.prefix "Failed to execute. Error: "
      (python_repl (Ext := Recorded.sandbox) Recorded.printed_code) = false
  ∧ String.prefix "Succesfully executed:"
      (python_repl (Ext := Recorded.sandbox) Recorded.printed_code) = true.
Proof.
  split_and!; vm_compute; reflexivity.
Qed.

(** ** The graph: control transfer *)

(** C3. The graph has exactly the three nodes [assistant],
    [Chart Generator] and [call_tool], each with one conditional edge, and
    starts at [assistant].  After the turn of an agent the router decides
    among three transfers: [call_tool] leads to the tool node, [continue] to
    the other agent, and [end] to [END]. *)
Theorem workflow_control_transfer `{Ext : Externals} :
  dom (nodes workflow) = ({[ "assistant"; "Chart Generator"; "call_tool" ]} : gset string)
  ∧ size (nodes workflow) = 3
  ∧ dom (branches workflow) = dom (nodes workflow)
  ∧ entry_point workflow = Some "assistant"
  ∧ ∀ (st : AgentState) (u : Update),
      (research_node st = Ok u →
         (router (apply_update st u) = Ok "call_tool" →
            step workflow "assistant" st = Ok ("call_tool", apply_update st u))
         ∧ (router (apply_update st u) = Ok "continue" →
            step workflow "assistant" st = Ok ("Chart Generator", apply_update st u))
         ∧ (router (apply_update st u) = Ok "end" →
            step workflow "assistant" st = Ok (END, apply_update st u)))
      ∧ (chart_node st = Ok u →
         (router (apply_update st u) = Ok "call_tool" →
            step workflow "Chart Generator" st = Ok ("call_tool", apply_update st u))
         ∧ (router (apply_update st u) = Ok "continue" →
            step workflow "Chart Generator" st = Ok ("assistant", apply_update st u))
         ∧ (router (apply_update st u) = Ok "end" →
            step workflow "Chart Generator" st = Ok (END, apply_update st u))).
Proof.
  split_and!.
  - unfold workflow.
    cbn [nodes add_node add_conditional_edges set_entry_point StateGraph_new].
    rewrite !dom_insert_L, dom_empty_L. set_solver.
  - unfold workflow.
    cbn [nodes add_node add_conditional_edges set_entry_point StateGraph_new].
    rewrite !map_size_insert_None, map_size_empty; [done|..];
      repeat (rewrite lookup_insert_ne by done); apply lookup_empty.
  - unfold workflow.
    cbn [nodes branches add_node add_conditional_edges set_entry_point StateGraph_new].
    rewrite !dom_insert_L, !dom_empty_L. set_solver.
  - reflexivity.
  - intros st u. split; intros Hu.
    + rewrite (step_agent "assistant") by (apply agent_names_cases; eauto).
      change (agent_action "assistant" st) with (research_node st).
      rewrite Hu. simpl. split_and!; intros ->; reflexivity.
    + rewrite (step_agent "Chart Generator") by (apply agent_names_cases; eauto).
      change (agent_action "Chart Generator" st) with (chart_node st).
      rewrite Hu. simpl. split_and!; intros ->; reflexivity.
Qed.

Lemma workflow_control_transfer_witness :
  ∃ u, research_node (Ext := Reference.externals) Reference.question = Ok u
       ∧ router (apply_update Reference.question u) = Ok "call_tool"
       ∧ step (workflow (Ext := Reference.externals)) "assistant" Reference.question
         = Ok ("call_tool", apply_update Reference.question u).
Proof.
  eexists. split; [reflexivity|]. split; [reflexivity|].
  apply (workflow_control_transfer (Ext := Reference.externals)); reflexivity.
Defined.

(** The model reproduces the second run that the notebook recorded: the
    assistant answers, the chart generator answers, the assistant announces
    the final answer, and the run ends with the four messages and the
    sender that the notebook printed under [__end__]. *)
Example recorded_run :
  graph_invoke (workflow (Ext := Recorded.externals))
    {| messages := [Recorded.question]; sender := None |} 150
  = Ok {| messages :=
            [ Recorded.question;
              Recorded.said Recorded.first_reply "assistant";
              Recorded.said Recorded.first_reply "Chart Generator";
              Recorded.said Recorded.last_reply "assistant" ];
          sender := Some "assistant" |}.
Proof. vm_compute. reflexivity. Qed.

(** ** The graph: termination condition *)

(** C4. A step of the graph leads to [END] only from an agent node, and
    only when the last message of the state contains [FINAL ANSWER] and
    carries no [function_call]; with that condition false, the step leads
    to the tool node or to the other agent.  Hence a run that returns, from
    any node and in particular from the entry point, returns a state whose
    last message contains [FINAL ANSWER]. *)
Theorem end_requires_final_answer `{Ext : Externals} :
  (∀ node st st',
     step workflow node st = Ok (END, st') →
     node ∈ agent_names
     ∧ ∃ m, last (messages st') = Some m
            ∧ says_final_answer m ∧ ¬ carries_function_call m)
  ∧ (∀ agent st target st' m,
       agent ∈ agent_names →
       step workflow agent st = Ok (target, st') →
       last (messages st') = Some m →
       (target = END ↔ says_final_answer m ∧ ¬ carries_function_call m)
       ∧ (carries_function_call m → target = "call_tool")
       ∧ (¬ carries_function_call m → ¬ says_final_answer m →
          target = other_agent agent))
  ∧ (∀ limit node st st',
       run workflow limit node st = Ok st' →
       ∃ m, last (messages st') = Some m
            ∧ says_final_answer m ∧ ¬ carries_function_call m)
  ∧ (∀ input limit st',
       graph_invoke workflow input limit = Ok st' →
       ∃ m, last (messages st') = Some m
            ∧ says_final_answer m ∧ ¬ carries_function_call m).
Proof.
  assert (Hstep : ∀ node st st',
            step workflow node st = Ok (END, st') →
            node ∈ agent_names
            ∧ ∃ m, last (messages st') = Some m
                   ∧ says_final_answer m ∧ ¬ carries_function_call m).
  { intros node st st' H. destruct (step_node_cases _ _ _ H) as [Ha| ->].
    - split; [done|].
      destruct (step_agent_inv _ _ _ _ Ha H) as (u & key & m0 & _ & _ & _ & _ & Hr & Hk).
      apply router_inv in Hr as (m & Hm & Hcases). exists m. split; [done|].
      apply agent_ends_inv in Hk as [[_ Hk]|[[_ Hk]|[-> _]]].
      + apply agent_names_cases in Ha as [->| ->]; discriminate.
      + discriminate.
      + destruct Hcases as [[? _]|[[_ [? ?]]|[? _]]]; [discriminate|done|discriminate].
    - apply step_call_tool_inv in H as (_ & _ & _ & _ & _ & _ & _ & _ & Ha).
      apply agent_names_cases in Ha as [?|?]; discriminate. }
  assert (Hrun : ∀ limit node st st',
            run workflow limit node st = Ok st' →
            ∃ m, last (messages st') = Some m
                 ∧ says_final_answer m ∧ ¬ carries_function_call m).
  { intros limit node st st' H.
    apply run_reaches in H as (tr & Hr & Hne & _).
    inversion Hr as [|? ? ? ? _ Hs]; subst; [done|].
    by apply Hstep in Hs as [_ ?]. }
  split_and!; [done| |done|].
  - intros agent st target st' m Ha H Hm.
    destruct (step_agent_inv _ _ _ _ Ha H) as (u & key & m0 & _ & _ & _ & _ & Hr & Hk).
    apply router_inv in Hr as (m' & Hm' & Hcases).
    assert (m' = m) as -> by congruence.
    apply agent_ends_inv in Hk as [[-> ->]|[[-> ->]|[-> ->]]];
      (destruct Hcases as [[? ?]|[[? [? ?]]|[? [? ?]]]]; try discriminate);
      split_and!; try done; try tauto.
    + split; [|tauto]. intros Hend.
      apply agent_names_cases in Ha as [->| ->]; discriminate.
    + split; [discriminate|tauto].
  - intros input limit st'. unfold graph_invoke.
    change (entry_point workflow) with (Some "assistant"). apply Hrun.
Qed.

Lemma end_requires_final_answer_witness :
  ∃ st', graph_invoke (workflow (Ext := Reference.externals)) Reference.question 150
           = Ok st'
         ∧ ∃ m, last (messages st') = Some m
                ∧ says_final_answer m ∧ ¬ carries_function_call m.
Proof.
  eexists. split; [vm_compute; reflexivity|].
  apply (end_requires_final_answer (Ext := Reference.externals))
    with (input := Reference.question) (limit := 150).
  vm_compute. reflexivity.
Defined.

(** ** The shared state *)

(** C7. The state is its two fields, a list of messages and the tag of the
    last sender.  The update that an agent node returns sets [sender] to
    the agent's own name; hence, along every execution of the graph, once
    an agent has run, [sender] is the name of the agent node that ran last,
    which is the one that produced the most recent agent message. *)
Theorem sender_names_last_agent `{Ext : Externals} :
  (∀ st : AgentState, st = {| messages := messages st; sender := sender st |})
  ∧ (∀ (agent : Agent) (name : string) st u,
       agent_node agent name st = Ok u → u_sender u = Some name)
  ∧ (∀ st u, research_node st = Ok u → u_sender u = Some "assistant")
  ∧ (∀ st u, chart_node st = Ok u → u_sender u = Some "Chart Generator")
  ∧ (∀ c0 tr c agent,
       reaches workflow c0 tr c →
       last (filter (.∈ agent_names) tr) = Some agent →
       sender c.2 = Some agent).
Proof.
  split_and!.
  - by intros [].
  - intros agent name st u H. by apply agent_node_inv in H as [? _].
  - intros st u H. by apply agent_node_inv in H as [? _].
  - intros st u H. by apply agent_node_inv in H as [? _].
  - intros c0 tr c agent Hr. revert agent.
    induction Hr as [|tr node st [target st'] _ IH Hs]; intros agent; [done|].
    rewrite filter_app, filter_singleton by exact [].
    destruct (step_node_cases _ _ _ Hs) as [Ha| ->].
    + rewrite decide_True by done. rewrite last_snoc. intros [= <-].
      destruct (step_agent_inv _ _ _ _ Ha Hs) as (u & _ & _ & _ & -> & Hu & _).
      simpl. by rewrite Hu.
    + rewrite decide_False by apply call_tool_not_agent.
      rewrite app_nil_r. intros Hlast.
      apply step_call_tool_inv in Hs as (u & _ & _ & _ & -> & Hu & _).
      simpl. rewrite Hu. by apply IH.
Qed.

Lemma sender_names_last_agent_witness :
  ∃ c, reaches (workflow (Ext := Reference.externals))
         ("assistant", Reference.question) ["assistant"; "call_tool"] c
       ∧ sender c.2 = Some "assistant".
Proof.
  assert (∃ c, reaches (workflow (Ext := Reference.externals))
                 ("assistant", Reference.question)
                 ["assistant"; "call_tool"] c) as [c Hc].
  { eexists. eapply (reaches_next _ _ ["assistant"]).
    - eapply (reaches_next _ _ []); [constructor|]. vm_compute. reflexivity.
    - vm_compute. reflexivity. }
  exists c. split; [exact Hc|].
  apply (sender_names_last_agent (Ext := Reference.externals)) with (1 := Hc).
  reflexivity.
Defined.

(** C8. The update of the tool node holds [messages] only, so folding it
    into the state leaves [sender] as it was; the edge that leaves the tool
    node leads to the node named by [sender]; hence after an agent has asked
    for a tool and the tool node has run, control is back at that agent. *)
Theorem tool_node_keeps_sender `{Ext : Externals} :
  (∀ st u,
     tool_node st = Ok u →
     u_sender u = None
     ∧ (∃ ms, u_messages u = Some ms)
     ∧ sender (apply_update st u) = sender st)
  ∧ (∀ st target st',
       step workflow "call_tool" st = Ok (target, st') →
       sender st = Some target ∧ sender st' = Some target
       ∧ target ∈ agent_names)
  ∧ (∀ agent st st1 u,
       agent ∈ agent_names →
       step workflow agent st = Ok ("call_tool", st1) →
       tool_node st1 = Ok u →
       step workflow "call_tool" st1 = Ok (agent, apply_update st1 u)).
Proof.
  split_and!.
  - intros st u H. apply tool_node_inv in H as [Hs (c & n & Hm)].
    split_and!; [done|eauto|]. simpl. by rewrite Hs.
  - intros st target st' H.
    apply step_call_tool_inv in H as (u & _ & _ & _ & -> & Hs & _ & Hsender & Ha).
    split_and!; [done| |done]. simpl. by rewrite Hs.
  - intros agent st st1 u Ha Hstep Hu.
    destruct (step_agent_inv _ _ _ _ Ha Hstep) as (u0 & _ & _ & _ & -> & Hs & _).
    rewrite step_call_tool, Hu. simpl.
    destruct (tool_node_inv _ _ Hu) as [Hn _].
    unfold get_sender, apply_update. simpl. rewrite Hn, Hs. simpl.
    apply agent_names_cases in Ha as [->| ->]; reflexivity.
Qed.

Lemma tool_node_keeps_sender_witness :
  ∃ st1 u,
    step (workflow (Ext := Reference.externals)) "assistant" Reference.question
      = Ok ("call_tool", st1)
    ∧ tool_node (Ext := Reference.externals) st1 = Ok u
    ∧ step (workflow (Ext := Reference.externals)) "call_tool" st1
      = Ok ("assistant", apply_update st1 u).
Proof.
  eexists. eexists.
  split; [vm_compute; reflexivity|]. split; [vm_compute; reflexivity|].
  apply (tool_node_keeps_sender (Ext := Reference.externals))
    with (st := Reference.question).
  - apply agent_names_cases. by left.
  - vm_compute. reflexivity.
  - vm_compute. reflexivity.
Defined.

(** C10. The message list only grows.  An agent node returns exactly one
    message and the tool node exactly one [FunctionMessage]; a step of the
    graph appends that message to the right of the list and leaves the
    earlier messages as they were; hence an execution of [n] steps appends
    [n] messages, and the list a run starts from is a strict prefix of the
    list it returns. *)
Theorem messages_append_only `{Ext : Externals} :
  (∀ (agent : Agent) (name : string) st u,
     agent_node agent name st = Ok u → ∃ m, u_messages u = Some [m])
  ∧ (∀ st u,
       tool_node st = Ok u → ∃ c n, u_messages u = Some [FunctionMessage c n])
  ∧ (∀ st ms s, messages (apply_update st {| u_messages := Some ms; u_sender := s |})
                = messages st ++ ms)
  ∧ (∀ node st target st',
       step workflow node st = Ok (target, st') →
       ∃ m, messages st' = messages st ++ [m]
            ∧ (node = "call_tool" → type m = function))
  ∧ (∀ c0 tr c,
       reaches workflow c0 tr c →
       ∃ new, messages c.2 = messages c0.2 ++ new ∧ length new = length tr)
  ∧ (∀ limit node st st',
       run workflow limit node st = Ok st' →
       messages st `prefix_of` messages st'
       ∧ (length (messages st) < length (messages st'))%nat).
Proof.
  assert (Hreach : ∀ c0 tr c,
            reaches workflow c0 tr c →
            ∃ new, messages c.2 = messages c0.2 ++ new ∧ length new = length tr).
  { intros c0 tr c Hr.
    induction Hr as [|tr node st [target st'] _ (new & Hnew & Hlen) Hs].
    - exists []. by rewrite app_nil_r.
    - apply step_appends in Hs as (m & Hm & _). exists (new ++ [m]). simpl in *.
      rewrite Hm, Hnew, (assoc_L (++)), !length_app, Hlen. done. }
  split_and!; [| |done| |done|].
  - intros agent name st u H. by apply agent_node_inv in H as [_ ?].
  - intros st u H. by apply tool_node_inv in H as [_ ?].
  - intros node st target st'. apply step_appends.
  - intros limit node st st' H.
    apply run_reaches in H as (tr & Hr & Hne & _).
    apply Hreach in Hr as (new & Hnew & Hlen). simpl in Hnew.
    rewrite Hnew, length_app. split; [by apply prefix_app_r|].
    destruct tr; [done|]. simpl in Hlen. lia.
Qed.

Lemma messages_append_only_witness :
  ∃ st', run (workflow (Ext := Reference.externals)) 150 "assistant" Reference.question
           = Ok st'
         ∧ messages Reference.question `prefix_of` messages st'
         ∧ (length (messages Reference.question) < length (messages st'))%nat.
Proof.
  eexists. split; [vm_compute; reflexivity|].
  apply (messages_append_only (Ext := Reference.externals))
    with (limit := 150) (node := "assistant").
  vm_compute. reflexivity.
Defined.

(** ** The tool node *)

(** C2. On a state whose last message carries a [function_call] with the
    name [fname] of a registered tool and arguments that decode to a JSON
    object [d], the tool node invokes that tool, one of [tavily_tool] and
    [python_repl], on [d], or on the value under [__arg1] when that is the
    only key of [d]; when the tool returns [response], the node returns the
    update whose only field is [messages], holding the single
    [FunctionMessage] with content [fname response: str(response)] and name
    [fname].  The input reaches the tool through a [ToolInvocation], which
    holds a string or an object as it is. *)
Theorem tool_node_dispatch `{Ext : Externals} (state : AgentState)
    (last_message : BaseMessage) (fname arguments : string)
    (d : gmap string pyval) (t : BaseTool) (input response : pyval) :
  last (messages state) = Some last_message →
  calls last_message fname arguments →
  json_loads arguments = Ok (PDict d) →
  t ∈ tools →
  tool_name t = fname →
  validate_tool_input (single_arg_shorthand d) = Ok input →
  tool_invoke t input = Ok response →
  tools = [tavily_tool; tool "python_repl" python_repl]
  ∧ (∀ v, d = {[ "__arg1" := v ]} → single_arg_shorthand d = v)
  ∧ (dom d ≠ {[ "__arg1" ]} → single_arg_shorthand d = PDict d)
  ∧ (∀ s, single_arg_shorthand d = PStr s → input = PStr s)
  ∧ (∀ d', single_arg_shorthand d = PDict d' → input = PDict d')
  ∧ tool_node state =
      Ok {| u_messages :=
              Some [FunctionMessage (fname +:+ " response: " +:+ py_str response) fname];
            u_sender := None |}.
Proof.
  intros Hlast Hcalls Hjson Ht <- Hinput Hresp. split_and!.
  - reflexivity.
  - intros v ->. unfold single_arg_shorthand.
    rewrite lookup_singleton_eq, dom_singleton_L. by rewrite decide_True.
  - intros Hdom. unfold single_arg_shorthand.
    destruct (d !! "__arg1"); [|done]. by rewrite decide_False.
  - intros s Hs. rewrite Hs, validate_tool_input_str in Hinput. congruence.
  - intros d' Hd. rewrite Hd, validate_tool_input_dict in Hinput. congruence.
  - rewrite (tool_node_decoded _ _ _ _ _ Hlast Hcalls Hjson), Hinput. simpl.
    rewrite (tool_executor_registered _ _ Ht), Hresp. reflexivity.
Qed.

Lemma tool_node_dispatch_witness :
  tool_node (Ext := Reference.externals) Reference.exit_call =
    Ok {| u_messages :=
            Some [FunctionMessage
                    "python_repl response: Failed to execute. Error: SystemExit()"
                    "python_repl"];
          u_sender := None |}.
Proof.
  refine (proj2 (proj2 (proj2 (proj2 (proj2
    (tool_node_dispatch (Ext := Reference.externals) Reference.exit_call
       (HumanMessage_from
          (Reference.function_call_message "python_repl"
             ("{" +:+ Reference.quoted "__arg1" +:+ ": "
                  +:+ Reference.quoted "raise SystemExit" +:+ "}"))
          "Chart Generator")
       "python_repl"
       ("{" +:+ Reference.quoted "__arg1" +:+ ": "
            +:+ Reference.quoted "raise SystemExit" +:+ "}")
       {[ "__arg1" := PStr "raise SystemExit" ]}
       (tool "python_repl" python_repl)
       (PStr "raise SystemExit")
       (PStr "Failed to execute. Error: SystemExit()")
       _ _ _ _ _ _ _)))))).
  - reflexivity.
  - eexists. split_and!; reflexivity.
  - vm_compute. reflexivity.
  - apply elem_of_cons. right. apply elem_of_cons. by left.
  - reflexivity.
  - vm_compute. reflexivity.
  - vm_compute. reflexivity.
Defined.




(** * Further properties of the notebook's code *)

(** ** Facts used below *)

Section NodeFacts.
Context `{Ext : Externals}.

(** The update of an agent node, in full. *)
Lemma agent_node_reply (agent : Agent) (who : string) (st : AgentState)
    (reply : BaseMessage) :
  agent st = Ok reply →
  ∃ m, agent_node agent who st = Ok {| u_messages := Some [m]; u_sender := Some who |}
       ∧ content m = content reply
       ∧ additional_kwargs m = additional_kwargs reply
       ∧ (type reply = function → m = reply)
       ∧ (type reply ≠ function → type m = human ∧ name m = Some who).
Proof.
  intros Hreply. unfold agent_node. rewrite Hreply. simpl.
  destruct (decide (type reply = function)) as [Hf|Hf].
  - exists reply. split_and!; done.
  - exists (HumanMessage_from reply who). split_and!; done.
Qed.

Lemma agent_node_returns (agent : Agent) (who : string) (st : AgentState)
    (u : Update) :
  agent_node agent who st = Ok u → ∃ reply, agent st = Ok reply.
Proof.
  unfold agent_node. destruct (agent st) as [reply|]; [eauto|discriminate].
Qed.

Lemma str_length_app (a b : string) :
  String.length (a +:+ b) = (String.length a + String.length b)%nat.
Proof.
  induction a as [|c a IH]; [done|].
  rewrite append_cons. simpl. by rewrite IH.
Qed.

Lemma str_contains_length (n h : string) :
  str_contains n h = true → (String.length n ≤ String.length h)%nat.
Proof.
  intros H. apply str_contains_spec in H as (a & b & ->).
  rewrite !str_length_app. lia.
Qed.

(** [tool_node] up to the decoding of the arguments. *)
Lemma tool_node_after_decoding (state : AgentState) (last_message : BaseMessage)
    (fname arguments : string) (v : pyval) :
  last (messages state) = Some last_message →
  calls last_message fname arguments →
  json_loads arguments = Ok v →
  tool_node state =
    (n ← py_len v;
     single ← (if decide (n = 1) then py_contains "__arg1" v else Ok false);
     tool_input ← (if single : bool then py_first_value v else Ok v);
     input ← validate_tool_input tool_input;
     response ← tool_executor {| tool_of := fname; tool_input_of := input |};
     Ok (tool_response_update fname response)).
Proof.
  intros Hlast (fc & Hfc & Hname & Hargs) Hjson.
  unfold tool_node, list_getitem_last, dict_getitem. rewrite Hlast. simpl.
  rewrite Hfc. simpl. rewrite Hargs. simpl. rewrite Hjson. simpl.
  destruct (py_len v) as [n|]; simpl; [|done].
  destruct (if decide (n = 1) then py_contains "__arg1" v else Ok false)
    as [single|]; simpl; [|done].
  destruct (if single then py_first_value v else Ok v) as [input0|]; simpl; [|done].
  rewrite Hname. simpl. unfold ToolInvocation_new.
  rewrite validate_tool_str. simpl.
  by destruct (validate_tool_input input0).
Qed.

End NodeFacts.

(** ** The router and the agent nodes *)

(** X1. The router fails on the empty message list, with [IndexError], and
    on no other state. *)
Theorem router_fails_only_on_empty (state : AgentState) :
  (messages state = [] → router state = Raise IndexError)
  ∧ (∀ e, router state = Raise e → messages state = [] ∧ e = IndexError).
Proof.
  split.
  - intros H. unfold router. by rewrite H.
  - intros e H. destruct (last (messages state)) as [m|] eqn:Hlast.
    + rewrite (router_eq _ _ Hlast) in H.
      destruct (decide (carries_function_call m));
        [|destruct (str_contains "FINAL ANSWER" (content m))]; discriminate.
    + apply last_None in Hlast. unfold router in H. rewrite Hlast in H.
      simpl in H. split; congruence.
Qed.

Lemma router_fails_only_on_empty_witness :
  router {| messages := []; sender := None |} = Raise IndexError.
Proof.
  apply (router_fails_only_on_empty {| messages := []; sender := None |}).
  reflexivity.
Defined.

(** X2. After the turn of an agent the router always returns, whatever
    the messages before, and its answer is read off the agent's reply
    alone: [call_tool] when the reply carries a [function_call], else
    [end] when its content contains [FINAL ANSWER], else [continue].  The
    agent node returns one message under its own name as sender, and that
    message has the [content] and the [additional_kwargs] of the reply:
    the conversion into a human message keeps both. *)
Theorem router_after_agent_turn (agent : Agent) (who : string)
    (state : AgentState) (reply : BaseMessage) :
  agent state = Ok reply →
  ∃ m, agent_node agent who state
         = Ok {| u_messages := Some [m]; u_sender := Some who |}
       ∧ content m = content reply
       ∧ additional_kwargs m = additional_kwargs reply
       ∧ router (apply_update state {| u_messages := Some [m]; u_sender := Some who |}) =
           Ok (if decide (carries_function_call reply) then "call_tool"
               else if str_contains "FINAL ANSWER" (content reply) then "end"
               else "continue").
Proof.
  intros Hreply.
  destruct (agent_node_reply agent who state reply Hreply)
    as (m & Hu & Hc & Hk & _).
  exists m. split_and!; [exact Hu|exact Hc|exact Hk|].
  assert (last (messages (apply_update state
            {| u_messages := Some [m]; u_sender := Some who |})) = Some m) as Hlast.
  { simpl. apply last_snoc. }
  rewrite (router_eq _ _ Hlast). unfold carries_function_call. rewrite Hk, Hc.
  destruct (decide (is_Some (additional_kwargs reply !! "function_call"))); [done|].
  by destruct (str_contains "FINAL ANSWER" (content reply)).
Qed.

Lemma router_after_agent_turn_witness :
  ∃ m, agent_node Reference.researcher "assistant"
         {| messages := []; sender := None |}
         = Ok {| u_messages := Some [m]; u_sender := Some "assistant" |}
       ∧ content m = "FINAL ANSWER"
       ∧ additional_kwargs m = ∅
       ∧ router (apply_update {| messages := []; sender := None |}
                   {| u_messages := Some [m]; u_sender := Some "assistant" |}) = Ok "end".
Proof.
  exact (router_after_agent_turn Reference.researcher "assistant"
           {| messages := []; sender := None |}
           (Reference.text_message "FINAL ANSWER") eq_refl).
Defined.

(** ** The tool node: what it refuses *)

(** X3. The tool node returns only on states that the router sends to it:
    on the empty message list it raises [IndexError], on a last message
    without [function_call] it raises [KeyError], and whenever it returns
    the router answers [call_tool] on the same state. *)
Theorem tool_node_needs_function_call `{Ext : Externals} (state : AgentState) :
  (messages state = [] → tool_node state = Raise IndexError)
  ∧ (∀ m, last (messages state) = Some m → ¬ carries_function_call m →
          tool_node state = Raise (KeyError "function_call"))
  ∧ (∀ u, tool_node state = Ok u → router state = Ok "call_tool").
Proof.
  split_and!.
  - intros H. unfold tool_node. by rewrite H.
  - intros m Hlast Hfc. unfold tool_node, list_getitem_last, dict_getitem.
    rewrite Hlast. simpl.
    destruct (additional_kwargs m !! "function_call") eqn:Hk; [|done].
    destruct Hfc. unfold carries_function_call. by rewrite Hk.
  - intros u Hu. unfold tool_node, list_getitem_last, dict_getitem in Hu.
    destruct (last (messages state)) as [m|] eqn:Hlast; [|discriminate].
    simpl in Hu.
    destruct (additional_kwargs m !! "function_call") eqn:Hk; [|discriminate].
    rewrite (router_eq _ _ Hlast). rewrite decide_True; [done|].
    unfold carries_function_call. by rewrite Hk.
Qed.

Lemma tool_node_needs_function_call_witness :
  tool_node (Ext := Reference.externals) Reference.question
    = Raise (KeyError "function_call")
  ∧ router Reference.exit_call = Ok "call_tool".
Proof.
  split.
  - eapply (tool_node_needs_function_call (Ext := Reference.externals)
              Reference.question).
    + reflexivity.
    + intros [v Hv]. discriminate Hv.
  - eapply (tool_node_needs_function_call (Ext := Reference.externals)
              Reference.exit_call).
    vm_compute. reflexivity.
Defined.

(** X4. Arguments that are JSON but have no length make the tool node
    raise: when they decode to [null], a boolean or a number, [len] raises
    [TypeError]; when they decode to the array whose only element is the
    string [__arg1], the shorthand test passes and [values] raises
    [AttributeError]. *)
Theorem tool_node_rejects_non_objects `{Ext : Externals} (state : AgentState)
    (last_message : BaseMessage) (fname arguments : string) (v : pyval) :
  last (messages state) = Some last_message →
  calls last_message fname arguments →
  json_loads arguments = Ok v →
  (json_scalar v → tool_node state = Raise TypeError)
  ∧ (v = PList [PStr "__arg1"] → tool_node state = Raise AttributeError).
Proof.
  intros Hlast Hcalls Hjson.
  rewrite (tool_node_after_decoding _ _ _ _ _ Hlast Hcalls Hjson). split.
  - by destruct v.
  - by intros ->.
Qed.

Lemma tool_node_rejects_non_objects_witness :
  tool_node (Ext := Reference.externals)
    {| messages :=
         [HumanMessage_from (Reference.function_call_message "python_repl" "5")
            "Chart Generator"];
       sender := Some "Chart Generator" |}
  = Raise TypeError.
Proof.
  refine (proj1
    (tool_node_rejects_non_objects (Ext := Reference.externals) _
       (HumanMessage_from (Reference.function_call_message "python_repl" "5")
          "Chart Generator")
       "python_repl" "5" (PInt 5) _ _ _) _).
  - reflexivity.
  - eexists. split_and!; reflexivity.
  - vm_compute. reflexivity.
  - exact I.
Defined.

(** X5. Arguments that decode to a JSON string reach the tool as that
    string: the shorthand for [__arg1] never applies to a string, also not
    to one of length one. *)
Theorem tool_node_passes_strings `{Ext : Externals} (state : AgentState)
    (last_message : BaseMessage) (fname arguments s : string)
    (t : BaseTool) (response : pyval) :
  last (messages state) = Some last_message →
  calls last_message fname arguments →
  json_loads arguments = Ok (PStr s) →
  t ∈ tools →
  tool_name t = fname →
  tool_invoke t (PStr s) = Ok response →
  tool_node state =
    Ok {| u_messages :=
            Some [FunctionMessage (fname +:+ " response: " +:+ py_str response) fname];
          u_sender := None |}.
Proof.
  intros Hlast Hcalls Hjson Ht <- Hresp.
  rewrite (tool_node_after_decoding _ _ _ _ _ Hlast Hcalls Hjson). simpl.
  assert ((if decide (String.length s = 1)
           then Ok (str_contains "__arg1" s) else Ok false) = Ok false) as ->.
  { destruct (decide (String.length s = 1)) as [Hlen|]; [|done].
    destruct (str_contains "__arg1" s) eqn:Hc; [|done].
    apply str_contains_length in Hc. simpl in Hc. lia. }
  simpl. rewrite validate_tool_input_str. simpl.
  rewrite (tool_executor_registered _ _ Ht), Hresp. reflexivity.
Qed.

Lemma tool_node_passes_strings_witness :
  tool_node (Ext := Reference.externals)
    {| messages :=
         [HumanMessage_from
            (Reference.function_call_message "python_repl" (Reference.quoted "print(1)"))
            "Chart Generator"];
       sender := Some "Chart Generator" |}
  = Ok {| u_messages :=
            Some [FunctionMessage
                    ("python_repl response: "
                       +:+ python_repl (Ext := Reference.externals) "print(1)")
                    "python_repl"];
          u_sender := None |}.
Proof.
  refine (tool_node_passes_strings (Ext := Reference.externals) _
    (HumanMessage_from
       (Reference.function_call_message "python_repl" (Reference.quoted "print(1)"))
       "Chart Generator")
    "python_repl" (Reference.quoted "print(1)") "print(1)"
    (tool "python_repl" python_repl)
    (PStr (python_repl (Ext := Reference.externals) "print(1)")) _ _ _ _ _ _).
  - reflexivity.
  - eexists. split_and!; reflexivity.
  - vm_compute. reflexivity.
  - apply elem_of_cons. right. apply elem_of_cons. by left.
  - reflexivity.
  - vm_compute. reflexivity.
Defined.

(** ** Executions of the graph *)

Section ExecutionFacts.
Context `{Ext : Externals}.

(** Everything a step of [workflow] does, for the node that ran. *)
Lemma step_summary (node : string) (st : AgentState) (target : string)
    (st' : AgentState) :
  step workflow node st = Ok (target, st') →
  ∃ m, messages st' = messages st ++ [m]
       ∧ said_by node m
       ∧ may_follow node target
       ∧ (node ∈ agent_names → sender st' = Some node)
       ∧ (node = "call_tool" → sender st = Some target ∧ sender st' = Some target).
Proof.
  intros H. destruct (step_node_cases _ _ _ H) as [Ha| ->].
  - destruct (step_agent_inv _ _ _ _ Ha H)
      as (u & key & m & Hact & -> & Hs & Hm & _ & Hk).
    exists m. split_and!.
    + simpl. by rewrite Hm.
    + assert (node ≠ "call_tool") as Hne
        by (intros ->; by destruct call_tool_not_agent).
      unfold said_by. rewrite decide_False by done.
      assert (∃ agent, agent_node agent node st = Ok u) as [agent Hnode].
      { apply agent_names_cases in Ha as [->| ->]; eexists; exact Hact. }
      destruct (agent_node_returns _ _ _ _ Hnode) as [reply Hreply].
      destruct (agent_node_reply agent node st reply Hreply)
        as (m' & Hu' & _ & _ & Hfun & Hhum).
      rewrite Hnode in Hu'. injection Hu' as ->. simpl in Hm. injection Hm as ->.
      destruct (decide (type reply = function)) as [Hf|Hf].
      * left. by rewrite (Hfun Hf).
      * right. by apply Hhum.
    + left. split; [done|].
      apply agent_ends_inv in Hk as [[_ ->]|[[_ ->]|[_ ->]]]; eauto.
    + intros _. simpl. by rewrite Hs.
    + intros ->. by destruct call_tool_not_agent.
  - destruct (step_call_tool_inv _ _ _ H)
      as (u & c & n & _ & -> & Hs & Hm & Hsender & Ha).
    exists (FunctionMessage c n). split_and!.
    + simpl. by rewrite Hm.
    + unfold said_by. rewrite decide_True by done. simpl. eauto.
    + right. done.
    + intros Hc. by destruct call_tool_not_agent.
    + intros _. split; [done|]. simpl. by rewrite Hs.
Qed.

(** After the first step [sender] is the name of an agent. *)
Lemma reaches_sender (c0 : string * AgentState) (tr : list string)
    (c : string * AgentState) :
  reaches workflow c0 tr c →
  tr ≠ [] →
  ∃ agent, agent ∈ agent_names ∧ sender c.2 = Some agent.
Proof.
  intros Hr. induction Hr as [|tr node st [target st'] _ _ Hs]; [done|].
  intros _. apply step_summary in Hs as (m & _ & _ & Hf & Ha & Ht).
  destruct Hf as [[Hag _]|[-> Htarget]].
  - exists node. split; [done|]. by apply Ha.
  - exists target. split; [done|]. by apply Ht.
Qed.

(** The nodes visited by an execution, the node at hand included: which
    node follows which, and where a tool call returns. *)
Lemma reaches_visits (c0 : string * AgentState) (tr : list string)
    (c : string * AgentState) :
  reaches workflow c0 tr c →
  (∀ i a b, (tr ++ [c.1]) !! i = Some a → (tr ++ [c.1]) !! S i = Some b →
            may_follow a b)
  ∧ (∀ i a b, (tr ++ [c.1]) !! i = Some a →
              (tr ++ [c.1]) !! S i = Some "call_tool" →
              (tr ++ [c.1]) !! S (S i) = Some b → b = a)
  ∧ (∀ i a, (tr ++ [c.1]) !! i = Some a →
            (tr ++ [c.1]) !! S i = Some "call_tool" →
            S (S i) = length (tr ++ [c.1]) → sender c.2 = Some a).
Proof.
  intros Hr.
  induction Hr as [|tr node st [target st'] _ (IH1 & IH2 & IH3) Hs]; simpl in *.
  - split_and!; intros i a; intros; destruct i; simplify_eq/=.
  - apply step_summary in Hs as (m & _ & _ & Hf & Ha & Ht).
    assert (Hlen : length (tr ++ [node]) = S (length tr))
      by (rewrite length_app; simpl; lia).
    assert (Hnode : ∀ i x, (tr ++ [node]) !! i = Some x → S i = length (tr ++ [node]) →
                           x = node).
    { intros i x Hx Hi. apply lookup_snoc_Some in Hx as [[? _]|[_ ?]]; [lia|done]. }
    split_and!.
    + intros i a b Hi HSi.
      apply lookup_snoc_Some in HSi as [[HltS HSi]|[HeqS <-]].
      * apply lookup_snoc_Some in Hi as [[_ Hi]|[? _]]; [|lia]. eauto.
      * apply lookup_snoc_Some in Hi as [[_ Hi]|[? _]]; [|lia].
        by rewrite (Hnode _ _ Hi HeqS).
    + intros i a b Hi HSi HSSi.
      apply lookup_snoc_Some in HSSi as [[HltSS HSSi]|[HeqSS <-]].
      * apply lookup_snoc_Some in HSi as [[_ HSi]|[? _]]; [|lia].
        apply lookup_snoc_Some in Hi as [[_ Hi]|[? _]]; [|lia]. eauto.
      * apply lookup_snoc_Some in HSi as [[_ HSi]|[? _]]; [|lia].
        apply lookup_snoc_Some in Hi as [[_ Hi]|[? _]]; [|lia].
        pose proof (Hnode _ _ HSi HeqSS) as Hcall.
        pose proof (IH3 _ _ Hi HSi HeqSS) as Hsender.
        destruct (Ht (eq_sym Hcall)) as [Hsender' _]. congruence.
    + intros i a Hi HSi HSS.
      rewrite length_app in HSS. simpl in HSS.
      apply lookup_snoc_Some in HSi as [[? _]|[_ ->]]; [lia|].
      apply lookup_snoc_Some in Hi as [[_ Hi]|[? _]]; [|lia].
      assert (a = node) as -> by (apply (Hnode i); [done|lia]).
      destruct Hf as [[Hag _]|[_ Hag]].
      * by apply Ha.
      * by destruct call_tool_not_agent.
Qed.

(** The messages appended by an execution, one for each node that ran. *)
Lemma reaches_said_by (c0 : string * AgentState) (tr : list string)
    (c : string * AgentState) :
  reaches workflow c0 tr c →
  ∃ new, messages c.2 = messages c0.2 ++ new ∧ Forall2 said_by tr new.
Proof.
  intros Hr.
  induction Hr as [|tr node st [target st'] _ (new & Hnew & Hall) Hs]; simpl in *.
  - exists []. split; [by rewrite app_nil_r|constructor].
  - apply step_summary in Hs as (m & Hm & Hsaid & _).
    exists (new ++ [m]). split.
    + by rewrite Hm, Hnew, (assoc_L (++)).
    + apply Forall2_app; [done|]. by repeat constructor.
Qed.

(** The message of a step, in terms of what the node's collaborator
    returned on the state before the step. *)
Lemma step_appended (node : string) (st : AgentState) (target : string)
    (st' : AgentState) :
  step workflow node st = Ok (target, st') →
  ∃ m, messages st' = messages st ++ [m] ∧ appended_by st node m.
Proof.
  intros H. destruct (step_node_cases _ _ _ H) as [Ha| ->].
  - destruct (step_agent_inv _ _ _ _ Ha H)
      as (u & key & m & Hact & -> & _ & Hm & _).
    exists m. split; [simpl; by rewrite Hm|].
    assert (node ≠ "call_tool") as Hne
      by (intros ->; by destruct call_tool_not_agent).
    unfold appended_by. rewrite decide_False by done.
    assert (agent_node (agent_of node) node st = Ok u) as Hnode.
    { apply agent_names_cases in Ha as [->| ->]; exact Hact. }
    unfold agent_node in Hnode.
    destruct (agent_of node st) as [reply|] eqn:Hreply; [|discriminate].
    exists reply. split; [done|].
    simpl in Hnode. injection Hnode as <-. simpl in Hm. by injection Hm as <-.
  - destruct (step_call_tool_inv _ _ _ H)
      as (u & c & n & Hu & -> & _ & Hm & _).
    exists (FunctionMessage c n). split; [simpl; by rewrite Hm|].
    unfold appended_by. rewrite decide_True by done.
    exists u. split_and!; [done|done|done|done|simpl; eauto].
Qed.

(** The messages appended by an execution, each with the state on which its
    node ran. *)
Lemma reaches_appended (c0 : string * AgentState) (tr : list string)
    (c : string * AgentState) :
  reaches workflow c0 tr c →
  ∃ new, messages c.2 = messages c0.2 ++ new
         ∧ length new = length tr
         ∧ ∀ i node m, tr !! i = Some node → new !! i = Some m →
             ∃ st, messages st = messages c0.2 ++ take i new
                   ∧ appended_by st node m.
Proof.
  intros Hr.
  induction Hr as [|tr node st [target st'] _ (new & Hnew & Hlen & Hall) Hs];
    simpl in *.
  - exists []. split_and!; [by rewrite app_nil_r|done|].
    intros i node m Hi. by destruct i.
  - apply step_appended in Hs as (m & Hm & Hby).
    exists (new ++ [m]). split_and!.
    + by rewrite Hm, Hnew, (assoc_L (++)).
    + rewrite !length_app, Hlen. done.
    + intros i a x Hi Hx.
      apply lookup_snoc_Some in Hi as [[Hlt Hi]|[Heq <-]].
      * apply lookup_snoc_Some in Hx as [[_ Hx]|[? _]]; [|lia].
        destruct (Hall i a x Hi Hx) as (st0 & Hst0 & Hby0).
        exists st0. split; [|done].
        rewrite take_app_le by lia. done.
      * apply lookup_snoc_Some in Hx as [[? _]|[_ <-]]; [lia|].
        exists st. split; [|done].
        rewrite take_app_le by lia. rewrite take_ge by lia. done.
Qed.

End ExecutionFacts.

(** ** Facts about texts *)

Lemma append_assoc (a b c : string) : (a +:+ b) +:+ c = a +:+ (b +:+ c).
Proof.
  induction a as [|x a IH]; [done|]. rewrite !append_cons. by rewrite IH.
Qed.



Lemma str_take_all (a : string) : str_take (String.length a) a = a.
Proof. induction a as [|x a IH]; [done|]. simpl. by rewrite IH. Qed.








(** ** The cells that cut the code out of the final state *)





(** ** The code-execution tool: telling failure from success *)

(** X6. The result of [python_repl] starts with [Failed to execute.] exactly
    when [repl.run] raised; when it returned, the result contains the code
    and ends with [Stdout: ] followed by the output. *)
Theorem python_repl_failure_shows `{Ext : Externals} (code : string) :
  (String.prefix "Failed to execute. Error: " (python_repl code) = true
   ↔ ∃ e, repl_run code = Raise e)
  ∧ (∀ result, repl_run code = Ok result →
       str_contains code (python_repl code) = true
       ∧ ∃ head, python_repl code = head +:+ "Stdout: " +:+ result).
Proof.
  unfold python_repl. split.
  - destruct (repl_run code) as [result|e].
    + split; [discriminate|]. intros [e He]. discriminate He.
    + split; [eauto|]. intros _. apply string_prefix_app. eauto.
  - intros result ->. split.
    + apply str_contains_spec.
      exists ("Succesfully executed:" +:+ newline +:+ "```python" +:+ newline).
      exists (newline +:+ "```" +:+ newline +:+ "Stdout: " +:+ result).
      by rewrite !append_assoc.
    + exists ("Succesfully executed:" +:+ newline +:+ "```python" +:+ newline
                +:+ code +:+ newline +:+ "```" +:+ newline).
      by rewrite !append_assoc.
Qed.

Lemma python_repl_failure_shows_witness :
  String.prefix "Failed to execute. Error: "
    (python_repl (Ext := Reference.externals) "raise SystemExit") = true
  ∧ str_contains "print(1)" (python_repl (Ext := Reference.externals) "print(1)") = true.
Proof.
  split.
  - apply (python_repl_failure_shows (Ext := Reference.externals) "raise SystemExit").
    eexists. reflexivity.
  - eapply (python_repl_failure_shows (Ext := Reference.externals) "print(1)").
    reflexivity.
Defined.

(** ** The edge that leaves the tool node *)

(** X7. Where the tool node has returned and the state has a sender, the
    edge that leaves the tool node follows that sender and nothing else:
    with a sender that is not the name of an agent the step raises
    [KeyError] for that name, and with the name of an agent the step leads
    to that agent, with the tool's message appended. *)
Theorem call_tool_edge_follows_sender `{Ext : Externals} (st : AgentState)
    (u : Update) (s : string) :
  tool_node st = Ok u →
  sender st = Some s →
  (s ∉ agent_names → step workflow "call_tool" st = Raise (KeyError s))
  ∧ (s ∈ agent_names → step workflow "call_tool" st = Ok (s, apply_update st u)).
Proof.
  intros Hu Hs. destruct (tool_node_inv _ _ Hu) as [Hnone _].
  rewrite step_call_tool, Hu. simpl. unfold get_sender. simpl. rewrite Hnone, Hs.
  split.
  - intros Hn. simpl. unfold dict_getitem.
    rewrite lookup_insert_ne, lookup_singleton_ne; [done|..];
      intros <-; apply Hn, agent_names_cases; eauto.
  - intros Hin. simpl.
    apply agent_names_cases in Hin as [->| ->]; reflexivity.
Qed.

Lemma call_tool_edge_follows_sender_witness :
  step (workflow (Ext := Reference.externals)) "call_tool"
    {| messages := messages Reference.exit_call; sender := Some "user" |}
  = Raise (KeyError "user")
  ∧ ∃ st', step (workflow (Ext := Reference.externals)) "call_tool" Reference.exit_call
           = Ok ("Chart Generator", st').
Proof.
  split.
  - refine (proj1
      (call_tool_edge_follows_sender (Ext := Reference.externals)
         {| messages := messages Reference.exit_call; sender := Some "user" |}
         {| u_messages :=
              Some [FunctionMessage
                      "python_repl response: Failed to execute. Error: SystemExit()"
                      "python_repl"];
            u_sender := None |} "user" _ _) _).
    + vm_compute. reflexivity.
    + reflexivity.
    + intros H. apply agent_names_cases in H as [H|H]; discriminate H.
  - eexists.
    refine (proj2
      (call_tool_edge_follows_sender (Ext := Reference.externals)
         Reference.exit_call
         {| u_messages :=
              Some [FunctionMessage
                      "python_repl response: Failed to execute. Error: SystemExit()"
                      "python_repl"];
            u_sender := None |} "Chart Generator" _ _) _).
    + vm_compute. reflexivity.
    + reflexivity.
    + apply agent_names_cases. by right.
Defined.

(** X8. In an execution that starts at an agent node, whatever the input,
    the edge that leaves the tool node cannot fail: when control is at the
    tool node, [sender] is the name of an agent, so whenever the tool node
    returns the step leads to an agent. *)
Theorem call_tool_edge_safe_from_agent `{Ext : Externals} (start : string)
    (st0 : AgentState) (tr : list string) (st : AgentState) (u : Update) :
  start ∈ agent_names →
  reaches workflow (start, st0) tr ("call_tool", st) →
  tool_node st = Ok u →
  ∃ agent, agent ∈ agent_names
           ∧ sender st = Some agent
           ∧ step workflow "call_tool" st = Ok (agent, apply_update st u).
Proof.
  intros Hstart Hr Hu.
  assert (tr ≠ []) as Hne.
  { intros ->. inversion Hr as [Hc|tr' ? ? ? _ _ Happ]; subst.
    - by destruct call_tool_not_agent.
    - by destruct tr'. }
  destruct (reaches_sender _ _ _ Hr Hne) as (agent & Ha & Hs). simpl in Hs.
  exists agent. split_and!; [done|done|].
  rewrite step_call_tool, Hu. simpl. unfold get_sender. simpl.
  destruct (tool_node_inv _ _ Hu) as [-> _]. rewrite Hs. simpl.
  apply agent_names_cases in Ha as [->| ->]; reflexivity.
Qed.

Lemma call_tool_edge_safe_from_agent_witness :
  ∃ st u, reaches (workflow (Ext := Reference.externals))
            ("assistant", Reference.question) ["assistant"] ("call_tool", st)
          ∧ tool_node (Ext := Reference.externals) st = Ok u
          ∧ ∃ agent, agent ∈ agent_names
                     ∧ sender st = Some agent
                     ∧ step (workflow (Ext := Reference.externals)) "call_tool" st
                       = Ok (agent, apply_update st u).
Proof.
  eexists. eexists.
  split.
  { eapply reaches_cons; [vm_compute; reflexivity|]. apply reaches_start. }
  split; [vm_compute; reflexivity|].
  eapply (call_tool_edge_safe_from_agent (Ext := Reference.externals)
            "assistant" Reference.question ["assistant"]).
  - apply agent_names_cases. by left.
  - eapply reaches_cons; [vm_compute; reflexivity|]. apply reaches_start.
  - vm_compute. reflexivity.
Defined.

(** ** The order in which nodes run *)

(** X9. In the sequence of nodes visited by an execution, the node at
    hand included, an agent is followed by the tool node, by the other
    agent or by [END], and the tool node by an agent; the node that follows
    a tool call is the agent that ran just before it.  So the tool node
    never runs twice in a row, and an agent runs twice in a row only around
    a tool call. *)
Theorem visits_follow_the_edges `{Ext : Externals} (c0 : string * AgentState)
    (tr : list string) (c : string * AgentState) :
  reaches workflow c0 tr c →
  (∀ i a b, (tr ++ [c.1]) !! i = Some a → (tr ++ [c.1]) !! S i = Some b →
            may_follow a b)
  ∧ (∀ i a b, (tr ++ [c.1]) !! i = Some a →
              (tr ++ [c.1]) !! S i = Some "call_tool" →
              (tr ++ [c.1]) !! S (S i) = Some b → b = a).
Proof.
  intros Hr. destruct (reaches_visits _ _ _ Hr) as (H1 & H2 & _). by split.
Qed.

Lemma visits_follow_the_edges_witness :
  ∃ c, reaches (workflow (Ext := Reference.externals))
         ("assistant", Reference.question) ["assistant"; "call_tool"] c
       ∧ c.1 = "assistant".
Proof.
  assert (∃ c, reaches (workflow (Ext := Reference.externals))
                 ("assistant", Reference.question)
                 ["assistant"; "call_tool"] c) as [c Hc].
  { eexists. eapply reaches_cons; [vm_compute; reflexivity|].
    eapply reaches_cons; [vm_compute; reflexivity|]. apply reaches_start. }
  exists c. split; [exact Hc|].
  destruct (visits_follow_the_edges (Ext := Reference.externals) _ _ _ Hc)
    as [_ Hback].
  apply (Hback 0%nat "assistant" c.1); [reflexivity|reflexivity|].
  by rewrite (list_lookup_middle ["assistant"; "call_tool"] [] c.1 2).
Defined.

(** ** Who said what *)

(** X10. An execution appends one message for each node that ran, in the
    order in which they ran, and each of them is what its node made of the
    messages up to it.  A message of the tool node is the message that
    [tool_node] returned, a function message with a name and without
    [additional_kwargs].  A message of an agent node is made from the reply
    of its agent: a reply that is a function message is appended as it is,
    unchanged, and any other reply as the human message built from it under
    that agent's name. *)
Theorem messages_follow_the_trace `{Ext : Externals} (c0 : string * AgentState)
    (tr : list string) (c : string * AgentState) :
  reaches workflow c0 tr c →
  ∃ new, messages c.2 = messages c0.2 ++ new
         ∧ length new = length tr
         ∧ Forall2 said_by tr new
         ∧ ∀ i node m, tr !! i = Some node → new !! i = Some m →
             ∃ st, messages st = messages c0.2 ++ take i new
                   ∧ appended_by st node m.
Proof.
  intros Hr.
  destruct (reaches_appended _ _ _ Hr) as (new & Hnew & Hlen & Hall).
  destruct (reaches_said_by _ _ _ Hr) as (new' & Hnew' & Hsaid).
  assert (new' = new) as -> by (rewrite Hnew in Hnew'; by apply app_inv_head in Hnew').
  exists new. split_and!; done.
Qed.

Lemma messages_follow_the_trace_witness :
  ∃ c new, reaches (workflow (Ext := Reference.externals))
             ("assistant", Reference.question) ["assistant"; "call_tool"] c
           ∧ messages c.2 = messages Reference.question ++ new
           ∧ length new = 2%nat
           ∧ Forall2 said_by ["assistant"; "call_tool"] new
           ∧ ∀ m, new !! 1%nat = Some m →
               ∃ st, messages st = messages Reference.question ++ take 1 new
                     ∧ appended_by (Ext := Reference.externals) st "call_tool" m.
Proof.
  assert (∃ c, reaches (workflow (Ext := Reference.externals))
                 ("assistant", Reference.question)
                 ["assistant"; "call_tool"] c) as [c Hc].
  { eexists. eapply reaches_cons; [vm_compute; reflexivity|].
    eapply reaches_cons; [vm_compute; reflexivity|]. apply reaches_start. }
  destruct (messages_follow_the_trace (Ext := Reference.externals) _ _ _ Hc)
    as (new & Hnew & Hlen & Hsaid & Hall).
  exists c, new. split_and!; [done|done|done|done|].
  intros m Hm. by apply (Hall 1%nat "call_tool" m).
Defined.

(** ** Runs: exceptions *)


